(** * CPU-Emulator: the virtual machine (vm.cpp) and the assembler (assembler.cpp)

    A shallow embedding of the two programs of the repository.

    - [Vm] follows [class VM] of vm.cpp: the register array, RAM and ROM,
      the 16-bit program counter, [execute] (the [switch] on the opcode),
      [run] (the fetch loop) and [load_program].
    - [Assembler] follows assembler.cpp: the string helpers
      ([is_register], [is_hex], [get_value], ...), the label maps,
      [parse_line] with its [goto finish] structure, and the loop of [main]
      that pushes the bytes of every parsed line.

    Fixed-width integers are [Z] with the wrap-around written out ([u8],
    [u16]).  Behaviour the C++ standard leaves undefined (an index outside a
    [std::vector] or [std::array], [back()] of an empty string) is an
    explicit failure of the model, never a value. *)

From Stdlib Require Import ZArith Lia String Ascii List.
From stdpp Require Import base option gmap strings list.

Open Scope Z_scope.

(** ** Fixed-width integers *)

(** Conversion to [uint8_t]. *)
Definition u8 (x : Z) : Z := x mod 256.

(** Conversion to [uint16_t]. *)
Definition u16 (x : Z) : Z := x mod 65536.

(** The values of a [uint8_t]. *)
Definition byte (z : Z) : Prop := 0 ≤ z < 256.

(** [v[i]] on a [std::vector] / [std::array]: undefined outside the
    bounds, [None] here. *)
Definition at_index {A : Type} (v : list A) (i : Z) : option A :=
  if 0 <=? i then v !! Z.to_nat i else None.

(** [v[i] = x]: undefined outside the bounds, [None] here. *)
Definition store {A : Type} (v : list A) (i : Z) (x : A) : option (list A) :=
  if (0 <=? i) && (i <? Z.of_nat (length v))
  then Some (<[Z.to_nat i := x]> v)
  else None.

(** * The virtual machine *)

Module Vm.

(** [bool isBitSet(int n, int k)]. *)
Definition isBitSet (n k : Z) : bool :=
  negb (Z.land n (Z.shiftl 1 k) =? 0).

(** [enum Register]. *)
Definition A_REG : Z := 0x00.
Definition B_REG : Z := 0x01.
Definition C_REG : Z := 0x02.
Definition F_REG : Z := 0x03.

(** [enum Flag]. *)
Definition ZeroMask : Z := 1.
Definition CarryMask : Z := 2.

(** The members of [class VM] that [execute] and [run] use.  [registers16]
    and [SP] are never read or written after construction; [SP] is kept,
    [registers16] is left out.  [console] collects the opcodes reported by
    the "Unknown opcode" message of [execute]; the [debug] trace of [run]
    prints only and is left out. *)
Record VM := mkVM {
  ram : list Z;
  rom : list Z;
  registers : list Z;
  PC : Z;
  SP : Z;
  console : list Z
}.

Definition with_PC (pc : Z) (vm : VM) : VM :=
  mkVM (ram vm) (rom vm) (registers vm) pc (SP vm) (console vm).

Definition with_registers (rs : list Z) (vm : VM) : VM :=
  mkVM (ram vm) (rom vm) rs (PC vm) (SP vm) (console vm).

Definition with_ram (m : list Z) (vm : VM) : VM :=
  mkVM m (rom vm) (registers vm) (PC vm) (SP vm) (console vm).

Definition with_rom (m : list Z) (vm : VM) : VM :=
  mkVM (ram vm) m (registers vm) (PC vm) (SP vm) (console vm).

Definition print_unknown (opcode : Z) (vm : VM) : VM :=
  mkVM (ram vm) (rom vm) (registers vm) (PC vm) (SP vm)
       (console vm ++ [opcode]).

(** [VM() : registers{}, PC(0), SP(0)] with both memories resized to 4096
    zero bytes. *)
Definition VM_new : VM :=
  mkVM (replicate 4096 0) (replicate 4096 0) (replicate 4 0) 0 0 [].

(** [load_program]: [std::copy] of the program to the start of ROM, which
    is undefined when the program is longer than ROM. *)
Definition load_program (program : list Z) (vm : VM) : option VM :=
  if (length program <=? length (rom vm))%nat
  then Some (with_PC 0 (with_rom (program ++ drop (length program) (rom vm)) vm))
  else None.

(** [rom[PC++]]. *)
Definition fetch (vm : VM) : option (Z * VM) :=
  b ← at_index (rom vm) (PC vm);
  Some (b, with_PC (u16 (PC vm + 1)) vm).

(** [(rom[PC++] << 8) | rom[PC++]], an [int], the left operand read
    first. *)
Definition fetch_pair (vm : VM) : option (Z * VM) :=
  '(hi, vm) ← fetch vm;
  '(lo, vm) ← fetch vm;
  Some (Z.lor (Z.shiftl hi 8) lo, vm).

(** [registers[r]]. *)
Definition get_reg (r : Z) (vm : VM) : option Z :=
  at_index (registers vm) r.

(** [registers[r] = v]. *)
Definition set_reg (r v : Z) (vm : VM) : option VM :=
  rs ← store (registers vm) r v;
  Some (with_registers rs vm).

(** [ram[location] = v]. *)
Definition set_ram (location v : Z) (vm : VM) : option VM :=
  m ← store (ram vm) location v;
  Some (with_ram m vm).

(** What a call of [execute] hands back to [run]: the [int] of a [return]
    statement, or nothing, when the function is left at its end without
    one. *)
Inductive returned :=
| Returns (r : Z)
| NoReturn.

(** [registers[reg] op= registers[reg2]] for a binary [op] on the promoted
    operands, the result converted back to [uint8_t].  The case ends in
    [break]. *)
Definition reg_reg (op : Z → Z → Z) (vm : VM) : option (returned * VM) :=
  '(reg, vm) ← fetch vm;
  '(reg2, vm) ← fetch vm;
  a ← get_reg reg vm;
  b ← get_reg reg2 vm;
  vm ← set_reg reg (u8 (op a b)) vm;
  Some (NoReturn, vm).

(** [registers[reg] op= value] for an immediate [value].  The case ends
    in [break]. *)
Definition reg_imm (op : Z → Z → Z) (vm : VM) : option (returned * VM) :=
  '(reg, vm) ← fetch vm;
  '(value, vm) ← fetch vm;
  a ← get_reg reg vm;
  vm ← set_reg reg (u8 (op a value)) vm;
  Some (NoReturn, vm).

Definition flag_zero (vm : VM) : option bool :=
  f ← get_reg F_REG vm;
  Some (negb (Z.land f ZeroMask =? 0)).

Definition flag_carry (vm : VM) : option bool :=
  f ← get_reg F_REG vm;
  Some (isBitSet f 1).

(** [int VM::execute(uint8_t opcode)].

    The result is what the call hands back and the new state.  Only
    [case 0x00] and [default] return, both [-1].  Every other case ends
    in [break], leaves the [switch] and reaches the end of the function,
    where there is no [return]: the [return 1] of the source is written
    inside the [switch], after the [return -1] of [default], and is never
    reached.  Those cases are [NoReturn]. *)
Definition execute (opcode : Z) (vm : VM) : option (returned * VM) :=
  match opcode with
  | 0x01 =>
      '(value, vm) ← fetch vm;
      vm ← set_reg A_REG value vm;
      Some (NoReturn, vm)
  | 0x02 =>
      '(reg, vm) ← fetch vm;
      v ← get_reg reg vm;
      vm ← set_reg A_REG v vm;
      Some (NoReturn, vm)
  | 0x03 =>
      '(target, vm) ← fetch_pair vm;
      v ← get_reg A_REG vm;
      vm ← set_ram (u16 target) v vm;
      Some (NoReturn, vm)
  | 0x04 =>
      '(value, vm) ← fetch vm;
      vm ← set_reg 1 value vm;
      Some (NoReturn, vm)
  | 0x05 =>
      '(reg, vm) ← fetch vm;
      v ← get_reg reg vm;
      vm ← set_reg 1 v vm;
      Some (NoReturn, vm)
  | 0x06 =>
      '(target, vm) ← fetch_pair vm;
      v ← get_reg 1 vm;
      vm ← set_ram (u16 target) v vm;
      Some (NoReturn, vm)
  | 0x07 =>
      '(value, vm) ← fetch vm;
      vm ← set_reg 2 value vm;
      Some (NoReturn, vm)
  | 0x08 =>
      '(reg, vm) ← fetch vm;
      v ← get_reg reg vm;
      vm ← set_reg 2 v vm;
      Some (NoReturn, vm)
  | 0x09 =>
      '(target, vm) ← fetch_pair vm;
      v ← get_reg 2 vm;
      vm ← set_ram (u16 target) v vm;
      Some (NoReturn, vm)
  | 0x0A =>
      '(target, vm) ← fetch_pair vm;
      v ← at_index (ram vm) (u16 target);
      vm ← set_reg A_REG v vm;
      Some (NoReturn, vm)
  | 0x0B => reg_reg Z.lor vm
  | 0x0C => reg_reg (λ a b, Z.land a (Z.lnot b)) vm
  | 0x0D => reg_imm Z.add vm
  | 0x0E => reg_imm (λ a b, Z.land a (Z.lnot b)) vm
  | 0x0F => reg_reg Z.land vm
  | 0x10 => reg_reg Z.lor vm
  | 0x11 => reg_reg Z.lxor vm
  | 0x12 =>
      '(reg, vm) ← fetch vm;
      a ← get_reg reg vm;
      vm ← set_reg reg (u8 (Z.lnot a)) vm;
      Some (NoReturn, vm)
  | 0x13 =>
      '(target, vm) ← fetch_pair vm;
      Some (NoReturn, with_PC (u16 (u8 target)) vm)
  | 0x14 =>
      '(target, vm) ← fetch_pair vm;
      zero ← flag_zero vm;
      if (zero : bool) then Some (NoReturn, with_PC (u16 (u8 target)) vm) else Some (NoReturn, vm)
  | 0x15 =>
      '(target, vm) ← fetch_pair vm;
      zero ← flag_zero vm;
      if negb zero then Some (NoReturn, with_PC (u16 (u8 target - 1)) vm) else Some (NoReturn, vm)
  | 0x16 =>
      '(target, vm) ← fetch_pair vm;
      carry ← flag_carry vm;
      if (carry : bool) then Some (NoReturn, with_PC (u16 (u8 target)) vm) else Some (NoReturn, vm)
  | 0x17 =>
      '(target, vm) ← fetch_pair vm;
      carry ← flag_carry vm;
      if negb carry then Some (NoReturn, with_PC (u16 (u8 target)) vm) else Some (NoReturn, vm)
  | 0x18 =>
      '(value, vm) ← fetch vm;
      reg ← get_reg A_REG vm;
      vm ← (if (reg : Z) =? value then set_reg F_REG ZeroMask vm else Some vm);
      vm ← (if negb (reg =? value)
            then f ← get_reg F_REG vm;
                 set_reg F_REG (u8 (Z.land f (Z.lnot ZeroMask))) vm
            else Some vm);
      vm ← (if value <? reg then set_reg F_REG 0 vm else Some vm);
      vm ← (if reg <? value then set_reg F_REG CarryMask vm else Some vm);
      Some (NoReturn, vm)
  | 0x00 => Some (Returns (-1), vm)
  | 0xFF => Some (NoReturn, vm)
  | _ => Some (Returns (-1), print_unknown opcode vm)
  end.

(** [result == -1], the test of [run] on what [execute] handed back.
    After a case that ended in [break] the [int] that is read is
    indeterminate; the model takes the test to fail there, so that the
    loop goes on after every instruction but [NOP] and an unknown
    opcode. *)
Definition is_exit (result : returned) : bool :=
  match result with
  | Returns r => r =? -1
  | NoReturn => false
  end.

(** What a run of the machine ends in: the loop was left ([Stopped]), the
    step budget of the model ran out ([Timeout]; the source loop has no
    bound), or the source did something undefined. *)
Inductive outcome :=
| Stopped (vm : VM)
| Timeout (vm : VM)
| Undefined.

(** [void VM::run()]: [while (PC < rom.size())], fetch, execute, leave on
    [-1]. *)
Fixpoint run (fuel : nat) (vm : VM) : outcome :=
  match fuel with
  | O => Timeout vm
  | S fuel =>
      if PC vm <? Z.of_nat (length (rom vm)) then
        match fetch vm with
        | None => Undefined
        | Some (instruction, vm) =>
            match execute instruction vm with
            | None => Undefined
            | Some (result, vm) =>
                if is_exit result then Stopped vm else run fuel vm
            end
        end
      else Stopped vm
  end.

(** [main] of vm.cpp after the file is read: a fresh machine, the program
    loaded, then [run]. *)
Definition boot (program : list Z) : option VM :=
  load_program program VM_new.

(** [void VM::memory_print()]: the lines it writes, as the address and the
    value of every RAM cell that is not zero, by increasing address.
    [print_cells i cells] is the loop from address [i] on. *)
Fixpoint print_cells (i : Z) (cells : list Z) : list (Z * Z) :=
  match cells with
  | [] => []
  | v :: cells => (if v =? 0 then [] else [(i, v)]) ++ print_cells (i + 1) cells
  end.

Definition memory_print (vm : VM) : list (Z * Z) := print_cells 0 (ram vm).

End Vm.

(** * The assembler *)

Module Assembler.

(** ** Failures

    The exceptions the library calls of assembler.cpp throw
    ([std::map::at], [std::stoi], [std::stoul]; none is caught, so the
    program terminates) and undefined behaviour. *)
Inductive error :=
| out_of_range
| invalid_argument
| undefined_behaviour.

Inductive result (A : Type) :=
| Ok (a : A)
| Fail (e : error).
Arguments Ok {A} a.
Arguments Fail {A} e.

#[global] Instance result_ret : MRet result := λ A a, Ok a.
#[global] Instance result_bind : MBind result :=
  λ A B f m, match m with Ok a => f a | Fail e => Fail e end.

(** [m.find(k) != m.end()] on the result of a lookup. *)
Definition found {A : Type} (o : option A) : bool :=
  match o with Some _ => true | None => false end.

(** [o] is the result of a lookup that throws or is undefined when it
    finds nothing. *)
Definition or_fail {A : Type} (e : error) (o : option A) : result A :=
  match o with Some a => Ok a | None => Fail e end.

(** ** Strings *)

Definition code (c : ascii) : Z := Z.of_N (N_of_ascii c).

(** [isspace] in the "C" locale. *)
Definition is_space (c : ascii) : bool :=
  (code c =? 32) || ((9 <=? code c) && (code c <=? 13)).

(** [::toupper] in the "C" locale. *)
Definition toupper (c : ascii) : ascii :=
  if (97 <=? code c) && (code c <=? 122)
  then ascii_of_N (Z.to_N (code c - 32))
  else c.

(** [std::transform(token.begin(), token.end(), token.begin(), ::toupper)]. *)
Fixpoint upper (s : string) : string :=
  match s with
  | EmptyString => EmptyString
  | String c s => String (toupper c) (upper s)
  end.

(** [s.erase(s.find(c))] when [c] occurs in [s], else [s]. *)
Fixpoint erase_from (c : ascii) (s : string) : string :=
  match s with
  | EmptyString => EmptyString
  | String a s => if Ascii.eqb a c then EmptyString else String a (erase_from c s)
  end.

(** [s.back()], undefined on the empty string. *)
Fixpoint back (s : string) : option ascii :=
  match s with
  | EmptyString => None
  | String c EmptyString => Some c
  | String _ s => back s
  end.

(** [s.pop_back()]. *)
Fixpoint pop_back (s : string) : string :=
  match s with
  | EmptyString => EmptyString
  | String c EmptyString => EmptyString
  | String c s => String c (pop_back s)
  end.

(** [s.front()], undefined on the empty string. *)
Definition front (s : string) : option ascii :=
  match s with
  | EmptyString => None
  | String c _ => Some c
  end.

(** [s.substr(1)]; throws [std::out_of_range] when [s] is empty. *)
Definition substr1 (s : string) : result string :=
  match s with
  | EmptyString => Fail out_of_range
  | String _ s => Ok s
  end.

(** The words [iss >> token] extracts from a line one after the other:
    maximal runs of characters that are not white space.  [cur] is the
    word being read. *)
Fixpoint words_from (cur : string) (s : string) : list string :=
  match s with
  | EmptyString => if String.eqb cur "" then [] else [cur]
  | String c s =>
      if is_space c
      then (if String.eqb cur "" then words_from "" s else cur :: words_from "" s)
      else words_from (cur +:+ String c "") s
  end.

Definition words (line : string) : list string := words_from "" line.

(** ** Numbers *)

(** The value of a digit in base 10 or 16. *)
Definition digit (base : Z) (c : ascii) : option Z :=
  let n := code c in
  if (48 <=? n) && (n <=? 57) then Some (n - 48)
  else if (base =? 16) && (97 <=? n) && (n <=? 102) then Some (n - 87)
  else if (base =? 16) && (65 <=? n) && (n <=? 70) then Some (n - 55)
  else None.

(** The longest prefix of digits of [s], read in [base] on top of [acc]. *)
Fixpoint digits (base : Z) (acc : Z) (s : string) : Z :=
  match s with
  | EmptyString => acc
  | String c s =>
      match digit base c with
      | Some d => digits base (acc * base + d) s
      | None => acc
      end
  end.

(** The number [strtol] / [strtoul] read after white space and sign;
    [None] when there is no digit to convert. *)
Definition magnitude (base : Z) (s : string) : option Z :=
  match s with
  | EmptyString => None
  | String c _ =>
      match digit base c with
      | Some _ => Some (digits base 0 s)
      | None => None
      end
  end.

Fixpoint skip_space (s : string) : string :=
  match s with
  | String c s' => if is_space c then skip_space s' else s
  | EmptyString => s
  end.

(** An optional sign: whether it is [-], and the rest. *)
Definition sign (s : string) : bool * string :=
  match s with
  | String "-" s' => (true, s')
  | String "+" s' => (false, s')
  | _ => (false, s)
  end.

(** The optional [0x] / [0X] of base 16, taken only before a hex digit. *)
Definition hex_prefix (s : string) : string :=
  match s with
  | String "0" (String x (String d s' as rest)) =>
      if (Ascii.eqb x "x" || Ascii.eqb x "X") && found (digit 16 d)
      then rest else s
  | _ => s
  end.

(** [std::stoi(s)]: base 10, the result an [int]. *)
Definition stoi (s : string) : result Z :=
  let '(neg, s) := sign (skip_space s) in
  match magnitude 10 s with
  | None => Fail invalid_argument
  | Some m =>
      let v := if neg then - m else m in
      if (-2147483648 <=? v) && (v <=? 2147483647) then Ok v else Fail out_of_range
  end.

(** [std::stoul(s, nullptr, 16)]: the result an [unsigned long] of 64
    bits, a negative number negated in that type. *)
Definition stoul16 (s : string) : result Z :=
  let '(neg, s) := sign (skip_space s) in
  match magnitude 16 (hex_prefix s) with
  | None => Fail invalid_argument
  | Some m =>
      if m <? 2 ^ 64
      then Ok (if neg then (- m) mod 2 ^ 64 else m)
      else Fail out_of_range
  end.

(** ** The tables *)

(** [ld_registers.at(c)]. *)
Definition ld_registers (c : ascii) : option Z :=
  if Ascii.eqb c "A" then Some 0x02
  else if Ascii.eqb c "B" then Some 0x05
  else if Ascii.eqb c "C" then Some 0x08
  else None.

(** [ld_values.at(c)]. *)
Definition ld_values (c : ascii) : option Z :=
  if Ascii.eqb c "A" then Some 0x01
  else if Ascii.eqb c "B" then Some 0x04
  else if Ascii.eqb c "C" then Some 0x07
  else None.

(** [st_addresses.at(c)]. *)
Definition st_addresses (c : ascii) : option Z :=
  if Ascii.eqb c "A" then Some 0x03
  else if Ascii.eqb c "B" then Some 0x06
  else if Ascii.eqb c "C" then Some 0x09
  else None.

(** [register_codes.at(c)]. *)
Definition register_codes (c : ascii) : option Z :=
  if Ascii.eqb c "A" then Some 0x00
  else if Ascii.eqb c "B" then Some 0x01
  else if Ascii.eqb c "C" then Some 0x02
  else None.

(** [bitwise_operations]. *)
Definition bitwise_operations (s : string) : option Z :=
  if String.eqb s "AND" then Some 0x0F
  else if String.eqb s "OR" then Some 0x10
  else if String.eqb s "XOR" then Some 0x11
  else if String.eqb s "NOT" then Some 0x12
  else None.

(** [jump_cases]. *)
Definition jump_cases (s : string) : option Z :=
  if String.eqb s "Z" then Some 0x14
  else if String.eqb s "NZ" then Some 0x15
  else if String.eqb s "C" then Some 0x16
  else if String.eqb s "NC" then Some 0x17
  else None.

(** [registers]. *)
Definition registers : list string := ["A"; "B"; "C"]%string.

(** ** The helper functions *)

(** [is_address]. *)
Definition is_address (token : string) : result bool :=
  c ← or_fail undefined_behaviour (front token);
  Ok (Ascii.eqb c "$" && (1 <? Z.of_nat (String.length token))).

(** [is_register]: the answer and the token as the call leaves it, in
    upper case and cut at its first comma. *)
Definition is_register (token : string) : bool * string :=
  let token := erase_from "," (upper token) in
  (existsb (String.eqb token) registers, token).

(** [is_hex]. *)
Definition is_hex (token : string) : result bool :=
  c ← or_fail undefined_behaviour (front token);
  Ok (Ascii.eqb c "0" && (1 <? Z.of_nat (String.length token))
      && match String.get 1 token with Some x => Ascii.eqb x "X" | None => false end).

(** [is_jump_case]: the answer and the token cut at its first comma. *)
Definition is_jump_case (token : string) : bool * string :=
  let token := erase_from "," token in
  (found (jump_cases token), token).

(** [get_value].  In the hex branch [hex_iss >> std::hex >> value]
    extracts into a [uint8_t], which reads one character: the value is the
    code of the first character of the token. *)
Definition get_value (token : string) : result Z :=
  h ← is_hex token;
  if (h : bool) then
    c ← or_fail undefined_behaviour (front token);
    Ok (code c)
  else
    v ← stoi token;
    Ok (u8 v).

(** [clean_line]. *)
Definition clean_line (line : string) : string := erase_from ";" line.

(** ** Data *)

(** [Instruction::EMPTY_OPERAND], an enumerator of value [-1]. *)
Definition EMPTY_OPERAND : Z := -1.

(** [class Instruction].  [opcode] has no initialiser: [None] is the
    indeterminate value of a member that was never assigned.  The operand
    members are [uint8_t] initialised from [EMPTY_OPERAND]. *)
Record Instruction := mkInstruction {
  opcode : option Z;
  operand1 : Z;
  operand2 : Z
}.

Definition Instruction_new : Instruction :=
  mkInstruction None (u8 EMPTY_OPERAND) (u8 EMPTY_OPERAND).

(** [class ParsedLine]; the members [address] and [size] are
    [line_address] and [line_size] here. *)
Record ParsedLine := mkParsedLine {
  instruction : Instruction;
  label : string;
  is_label : bool;
  line_address : Z;
  line_size : Z
}.

Definition ParsedLine_new : ParsedLine :=
  mkParsedLine Instruction_new "" false 0 0.

(** What the loop of [main] owns and hands to [parse_line]: the global
    [program], the [address] counter and the two label maps. *)
Record Asm := mkAsm {
  program : list (option Z);
  address : Z;
  labels : gmap string Z;
  waiting_labels : gmap string Z
}.

Definition Asm_new : Asm := mkAsm [] 0 ∅ ∅.

(** The variables of one call of [parse_line]: the current [token], the
    words still in [iss], the local [instruction], the label members of
    [parsed_line], and the assembler state behind the pointers. *)
Record Env := mkEnv {
  token : string;
  iss : list string;
  instr : Instruction;
  env_label : string;
  env_is_label : bool;
  asm : Asm
}.

Definition with_token (t : string) (e : Env) : Env :=
  mkEnv t (iss e) (instr e) (env_label e) (env_is_label e) (asm e).

Definition with_asm (a : Asm) (e : Env) : Env :=
  mkEnv (token e) (iss e) (instr e) (env_label e) (env_is_label e) a.

Definition with_instr (i : Instruction) (e : Env) : Env :=
  mkEnv (token e) (iss e) i (env_label e) (env_is_label e) (asm e).

(** [iss >> token]: when no word is left the extraction fails and the
    token keeps its value. *)
Definition extract (e : Env) : Env :=
  match iss e with
  | [] => e
  | t :: rest => mkEnv t rest (instr e) (env_label e) (env_is_label e) (asm e)
  end.

(** [*address += n] on the [uint16_t] counter. *)
Definition bump (n : Z) (e : Env) : Env :=
  let a := asm e in
  with_asm (mkAsm (program a) (u16 (address a + n)) (labels a) (waiting_labels a)) e.

Definition set_opcode (op : Z) (e : Env) : Env :=
  with_instr (mkInstruction (Some op) (operand1 (instr e)) (operand2 (instr e))) e.

Definition set_operand1 (v : Z) (e : Env) : Env :=
  with_instr (mkInstruction (opcode (instr e)) v (operand2 (instr e))) e.

Definition set_operand2 (v : Z) (e : Env) : Env :=
  with_instr (mkInstruction (opcode (instr e)) (operand1 (instr e)) v) e.

(** The two operand bytes of a 16-bit value, high byte first. *)
Definition set_address_operands (a : Z) (e : Env) : Env :=
  set_operand2 (u8 (Z.land a 0xFF)) (set_operand1 (u8 (Z.shiftr a 8)) e).

(** [m->insert({k, v})]: an existing entry is kept. *)
Definition map_insert (k : string) (v : Z) (m : gmap string Z) : gmap string Z :=
  match m !! k with
  | Some _ => m
  | None => <[k := v]> m
  end.

(** ** Labels *)

(** [check_waiting_labels]: the one offset recorded for [label], if any,
    is patched with [current_address]. *)
Definition check_waiting_labels (label : string) (a : Asm) : result Asm :=
  let current_address := address a in
  match waiting_labels a !! label with
  | Some addr =>
      p ← or_fail undefined_behaviour
            (store (program a) (addr - 1) (Some (u8 (Z.shiftr current_address 8))));
      p ← or_fail undefined_behaviour
            (store p addr (Some (u8 (Z.land current_address 0xFF))));
      Ok (mkAsm p (address a) (labels a) (waiting_labels a))
  | None => Ok a
  end.

(** [get_label_address]: the address of a known label; otherwise the
    label is put in [waiting_labels] with the current counter and the
    result is [-1] as a [uint16_t]. *)
Definition get_label_address (label : string) (a : Asm) : Z * Asm :=
  match labels a !! label with
  | Some addr => (addr, a)
  | None =>
      (u16 (-1),
       mkAsm (program a) (address a) (labels a)
             (map_insert label (address a) (waiting_labels a)))
  end.

(** ** [parse_line]

    The function is a sequence of [if] blocks.  A block either jumps to
    [finish] or is left at its end, and then the following blocks are
    tried on the variables as the block left them. *)
Inductive flow :=
| Finish (e : Env)
| Next (e : Env).

(** [token.substr(0, 2) == "LD"]. *)
Definition ld_block (e : Env) : result flow :=
  if String.eqb (substring 0 2 (token e)) "LD" then
    load_to ← or_fail undefined_behaviour (back (token e));
    let e := bump 1 (extract e) in
    let '(reg, t) := is_register (token e) in
    let e := with_token t e in
    if reg then
      let e := with_token (upper (token e)) e in
      load_from ← or_fail undefined_behaviour (back (token e));
      op ← or_fail out_of_range (ld_registers load_to);
      r ← or_fail out_of_range (register_codes load_from);
      Ok (Finish (bump 1 (set_operand1 r (set_opcode op e))))
    else
      addr ← is_address (token e);
      if (addr : bool) && Ascii.eqb load_to "A" then
        let e := set_opcode 0x0A e in
        s ← substr1 (token e);
        v ← stoul16 s;
        let load_address := u16 v in
        Ok (Finish (bump 1 (set_address_operands load_address e)))
      else
        load_value ← get_value (token e);
        op ← or_fail out_of_range (ld_values load_to);
        Ok (Finish (bump 1 (set_operand1 load_value (set_opcode op e))))
  else Ok (Next e).

(** [token.substr(0, 2) == "ST"]. *)
Definition st_block (e : Env) : result flow :=
  if String.eqb (substring 0 2 (token e)) "ST" then
    store_from ← or_fail undefined_behaviour (back (token e));
    let e := bump 1 (extract e) in
    op ← or_fail out_of_range (st_addresses store_from);
    let e := set_opcode op e in
    s ← substr1 (token e);
    v ← stoul16 s;
    let store_address := u16 v in
    Ok (Finish (bump 1 (set_address_operands store_address e)))
  else Ok (Next e).

(** [token.substr(0, 3) == "ADD" || token.substr(0, 3) == "SUB"].  The
    register-register case has no [goto]: it leaves the block. *)
Definition arith_block (e : Env) : result flow :=
  let operation := substring 0 3 (token e) in
  if String.eqb operation "ADD" || String.eqb operation "SUB" then
    let e := bump 1 (extract e) in
    let '(reg, t) := is_register (token e) in
    let e := with_token t e in
    if reg then
      c ← or_fail undefined_behaviour (back (token e));
      target_register ← or_fail out_of_range (register_codes c);
      let e := bump 1 (extract e) in
      let '(reg2, t) := is_register (token e) in
      let e := with_token t e in
      if reg2 then
        c ← or_fail undefined_behaviour (back (token e));
        source_register ← or_fail out_of_range (register_codes c);
        let op := if String.eqb operation "ADD" then 0x0B else 0x0C in
        Ok (Next (set_operand2 source_register
                   (set_operand1 target_register (set_opcode op e))))
      else
        value ← get_value (token e);
        let op := if String.eqb operation "ADD" then 0x0D else 0x0E in
        Ok (Finish (set_operand2 value
                     (set_operand1 target_register (set_opcode op e))))
    else Ok (Next e)
  else Ok (Next e).

(** [bitwise_operations.find(token) != bitwise_operations.end()]. *)
Definition bitwise_block (e : Env) : result flow :=
  if found (bitwise_operations (token e)) then
    let operation := substring 0 3 (token e) in
    let e := bump 1 (extract e) in
    let '(reg, t) := is_register (token e) in
    let e := with_token t e in
    if reg then
      c ← or_fail undefined_behaviour (back (token e));
      target_register ← or_fail out_of_range (register_codes c);
      op ← or_fail out_of_range (bitwise_operations operation);
      let e := set_operand1 target_register (set_opcode op e) in
      if String.eqb operation "NOT" then Ok (Finish e)
      else
        let e := bump 1 (extract e) in
        let '(reg2, t) := is_register (token e) in
        let e := with_token t e in
        if reg2 then
          c ← or_fail undefined_behaviour (back (token e));
          source_register ← or_fail out_of_range (register_codes c);
          Ok (Finish (set_operand2 source_register e))
        else Ok (Next e)
    else Ok (Next e)
  else Ok (Next e).

(** [token == "CP"]. *)
Definition cp_block (e : Env) : result flow :=
  if String.eqb (token e) "CP" then
    let e := set_opcode 0x18 (bump 2 (extract e)) in
    v ← get_value (token e);
    Ok (Finish (set_operand1 v e))
  else Ok (Next e).

(** [token.back() == ':']. *)
Definition label_block (e : Env) : result flow :=
  c ← or_fail undefined_behaviour (back (token e));
  if Ascii.eqb c ":" then
    let t := pop_back (token e) in
    let e := mkEnv t (iss e) (instr e) t true (asm e) in
    let e := bump (if address (asm e) =? 0 then 0 else 1) e in
    let a := asm e in
    let a := mkAsm (program a) (address a)
                   (map_insert t (address a) (labels a)) (waiting_labels a) in
    a ← check_waiting_labels t a;
    Ok (Finish (with_asm a e))
  else Ok (Next e).

(** [token.substr(0, 3) == "JMP"]. *)
Definition jmp_block (e : Env) : result flow :=
  if String.eqb (substring 0 3 (token e)) "JMP" then
    let e := bump 1 (extract e) in
    let '(jc, t) := is_jump_case (token e) in
    let e := with_token t e in
    if jc then
      jump_case ← or_fail out_of_range (jump_cases (token e));
      let e := bump 1 (extract e) in
      let '(jump_address, a) := get_label_address (token e) (asm e) in
      let e := with_asm a e in
      Ok (Finish (set_address_operands jump_address (set_opcode jump_case e)))
    else
      let '(jump_address, a) := get_label_address (token e) (asm e) in
      let e := with_asm a e in
      Ok (Finish (bump 1 (set_address_operands jump_address (set_opcode 0x13 e))))
  else Ok (Next e).

(** [token == "NOP"]. *)
Definition nop_block (e : Env) : result flow :=
  if String.eqb (token e) "NOP" then Ok (Finish (set_opcode 0x00 e))
  else Ok (Next e).

(** A block followed by the rest of the function. *)
Definition and_then (r : result flow) (k : Env → result flow) : result flow :=
  f ← r;
  match f with
  | Finish e => Ok (Finish e)
  | Next e => k e
  end.

Definition blocks (e : Env) : result flow :=
  and_then (ld_block e) (λ e,
  and_then (st_block e) (λ e,
  and_then (arith_block e) (λ e,
  and_then (bitwise_block e) (λ e,
  and_then (cp_block e) (λ e,
  and_then (label_block e) (λ e,
  and_then (jmp_block e) nop_block)))))).

Definition flow_env (f : flow) : Env :=
  match f with Finish e => e | Next e => e end.

(** [parse_line]: the first word is extracted, the blocks run, and at
    [finish] a label line returns at once while an instruction line
    records its address and size and moves the counter one further. *)
Definition parse_line (line : string) (st : Asm) : result (ParsedLine * Asm) :=
  let start_address := address st in
  let e := extract (mkEnv "" (words line) Instruction_new "" false st) in
  f ← blocks e;
  let e := flow_env f in
  if env_is_label e then
    Ok (mkParsedLine Instruction_new (env_label e) true 0 0, asm e)
  else
    let a := address (asm e) in
    Ok (mkParsedLine (instr e) (env_label e) false a (u16 (a - start_address)),
        asm (bump 1 e)).

(** ** The loop of [main] *)

Definition push_back (b : option Z) (a : Asm) : Asm :=
  mkAsm (program a ++ [b]) (address a) (labels a) (waiting_labels a).

(** The bytes [main] pushes for an instruction: the opcode, then each
    operand that differs from [EMPTY_OPERAND].  The operand is a
    [uint8_t], the enumerator is [-1]. *)
Definition emit (i : Instruction) (a : Asm) : Asm :=
  let a := push_back (opcode i) a in
  let a := if negb (operand1 i =? EMPTY_OPERAND) then push_back (Some (operand1 i)) a else a in
  let a := if negb (operand2 i =? EMPTY_OPERAND) then push_back (Some (operand2 i)) a else a in
  a.

(** One turn of [while (std::getline(file, line))]. *)
Definition main_step (line : string) (st : Asm) : result Asm :=
  let line := clean_line line in
  if String.eqb line "" then Ok st
  else
    '(parsed_line, st) ← parse_line line st;
    if is_label parsed_line then Ok st
    else Ok (emit (instruction parsed_line) st).

(** The whole loop over the lines of the input file. *)
Fixpoint main_loop (lines : list string) (st : Asm) : result Asm :=
  match lines with
  | [] => Ok st
  | line :: lines =>
      st ← main_step line st;
      main_loop lines st
  end.

(** [main] of assembler.cpp: the final state of the loop; its [program]
    is what is written to the output file, its [address] is what is
    printed as the program size. *)
Definition main (lines : list string) : result Asm := main_loop lines Asm_new.

(** The bytes of a finished program, when none is indeterminate. *)
Definition bytes (p : list (option Z)) : option (list Z) := mapM id p.

(** ** Notions used to state the properties *)

(** From [e] to [e']: operand members that hold bytes still do, and
    either the line has become a label declaration or the label flag and
    the program are as they were. *)
Definition kept (e e' : Env) : Prop :=
  (byte (operand1 (instr e)) ∧ byte (operand2 (instr e)) →
   byte (operand1 (instr e')) ∧ byte (operand2 (instr e')))
  ∧ (env_is_label e' = true
     ∨ (env_is_label e' = env_is_label e ∧ program (asm e') = program (asm e))).

(** [line] is never parsed as a label declaration. *)
Definition instruction_line (line : string) : Prop :=
  ∀ st pl st', parse_line (clean_line line) st = Ok (pl, st') → is_label pl = false.

(** [line] is a jump to the label [L] with the opcode [op]: [JMP cc, L]
    for a condition [cc] of [jump_cases], or [JMP L]. *)
Definition jump_to (line L : string) (op : Z) : Prop :=
  (∃ cc, words (clean_line line) = ["JMP"; cc; L]%string
         ∧ jump_cases (erase_from "," cc) = Some op)
  ∨ (words (clean_line line) = ["JMP"; L]%string
     ∧ jump_cases L = None ∧ erase_from "," L = L ∧ op = 0x13).

(** What [main] leaves: the program, the counter and the entries of the
    two label maps. *)
Definition summary (lines : list string)
  : result (list (option Z) * Z * list (string * Z) * list (string * Z)) :=
  a ← main lines;
  Ok (program a, address a, map_to_list (labels a), map_to_list (waiting_labels a)).


(** Every character of [s] passes the test [p]. *)
Fixpoint all_chars (p : ascii → bool) (s : string) : bool :=
  match s with
  | EmptyString => true
  | String c s => p c && all_chars p s
  end.

(** [s] has no character [c]. *)
Definition without (c : ascii) (s : string) : bool :=
  all_chars (λ a, negb (Ascii.eqb a c)) s.

(** [s] has no white space. *)
Definition spaceless (s : string) : bool := all_chars (λ a, negb (is_space a)) s.

(** [s] is white space only. *)
Definition blank (s : string) : bool := all_chars is_space s.

(** A word as [iss >> token] extracts it: not empty, no white space. *)
Definition proper_word (w : string) : Prop := w ≠ ""%string ∧ spaceless w = true.

(** The first word [t] of a line passes every test of [parse_line]: no
    block takes it. *)
Definition unrecognised (t : string) : bool :=
  negb (substring 0 2 t =? "LD")%string
  && negb (substring 0 2 t =? "ST")%string
  && negb (substring 0 3 t =? "ADD")%string
  && negb (substring 0 3 t =? "SUB")%string
  && negb (found (bitwise_operations t))
  && negb (t =? "CP")%string
  && match back t with Some c => negb (Ascii.eqb c ":") | None => false end
  && negb (substring 0 3 t =? "JMP")%string
  && negb (t =? "NOP")%string.

(** The first word [t] of a line reaches the label test of [parse_line]
    and passes it: it ends in a colon and does not begin like a load, a
    store or an arithmetic mnemonic. *)
Definition label_word (t : string) : bool :=
  negb (substring 0 2 t =? "LD")%string
  && negb (substring 0 2 t =? "ST")%string
  && negb (substring 0 3 t =? "ADD")%string
  && negb (substring 0 3 t =? "SUB")%string
  && match back t with Some c => Ascii.eqb c ":" | None => false end.

(** The state a declaration of [L] leaves before [check_waiting_labels]:
    the counter moved by one unless it is 0, and [L] inserted with it. *)
Definition after_label (L : string) (st : Asm) : Asm :=
  let a := u16 (address st + (if address st =? 0 then 0 else 1)) in
  mkAsm (program st) a (map_insert L a (labels st)) (waiting_labels st).

(** From [a] to [a']: the program has kept its length and both label
    maps have kept their entries. *)
Definition grown (a a' : Asm) : Prop :=
  length (program a') = length (program a)
  ∧ labels a ⊆ labels a'
  ∧ waiting_labels a ⊆ waiting_labels a'.

(** The state of a result that is [Ok], and [d] otherwise. *)
Definition ok_or (d : Asm) (r : result Asm) : Asm :=
  match r with Ok a => a | Fail _ => d end.

(** The mnemonics that take two registers, with their opcodes. *)
Definition register_form : list (string * Z) :=
  [("ADD", 0x0B); ("SUB", 0x0C); ("AND", 0x0F); ("OR", 0x10); ("XOR", 0x11)]%string.

End Assembler.

(** * Concrete machines and programs used below *)

Module Examples.
Import Vm.

(** A machine with A = 5 and B = 3 whose next two ROM bytes are 00 01: the
    operands of an instruction on register A, with register B or the
    immediate 1. *)
Definition vm_operands : VM :=
  with_rom ([0x00; 0x01] ++ replicate 4094 0)
    (with_registers [5; 3; 0; 0] VM_new).

(** A machine with A = 9 and the carry flag set (F = 2) whose next ROM
    byte is 9. *)
Definition vm_compare : VM :=
  with_rom ([0x09] ++ replicate 4095 0)
    (with_registers [9; 0; 0; 2] VM_new).


(** What is left in the registers, the program counter, the first RAM
    cell and the console when the machine is booted on [program] and
    stops within [fuel] steps. *)
Definition final (fuel : nat) (program : list Z) : option (list Z * Z * option Z * list Z) :=
  vm ← boot program;
  match run fuel vm with
  | Stopped vm => Some (registers vm, PC vm, at_index (ram vm) 0, console vm)
  | _ => None
  end.


(** The state after exactly [n] instructions. *)
Definition after (n : nat) (program : list Z) : option VM :=
  vm ← boot program;
  match run n vm with
  | Timeout vm => Some vm
  | _ => None
  end.

(** From [vm] to [vm']: the ROM and the stack pointer are the same and
    neither the RAM nor the register array has changed its size. *)
Definition same_shape (vm vm' : VM) : Prop :=
  rom vm' = rom vm ∧ SP vm' = SP vm
  ∧ length (ram vm') = length (ram vm)
  ∧ length (registers vm') = length (registers vm).

(** The opcodes 0x13 to 0x17. *)
Definition is_jump (opcode : Z) : bool := (0x13 <=? opcode) && (opcode <=? 0x17).

(** No byte of [m] is a jump opcode. *)
Definition jump_free (m : list Z) : bool := forallb (λ b, negb (is_jump b)) m.

(** The run left its loop or did something undefined: the step budget
    was enough. *)
Definition ended (o : outcome) : bool :=
  match o with
  | Timeout _ => false
  | _ => true
  end.

(** A fresh machine with [program] at the start of ROM. *)
Definition vm_with (program : list Z) : VM :=
  with_rom (program ++ replicate (4096 - length program) 0) VM_new.

(** The same with the four registers given. *)
Definition vm_with_registers (regs program : list Z) : VM :=
  with_registers regs (vm_with program).

(** The opcodes 0x03, 0x06 and 0x09. *)
Definition is_store (opcode : Z) : bool :=
  (opcode =? 0x03) || (opcode =? 0x06) || (opcode =? 0x09).

End Examples.

(** * Properties of the virtual machine *)

Section bytes.

(** A byte has no bit from position 8 on. *)
Lemma byte_high_bits (a n : Z) : 0 ≤ a < 256 → 8 ≤ n → Z.testbit a n = false.
Proof.
  intros Ha Hn.
  rewrite <- (Z.mod_small a (2 ^ 8)) by lia.
  apply Z.mod_pow2_bits_high; lia.
Qed.

(** The conversion to [uint8_t] keeps a number that has no high bit. *)
Lemma u8_low_bits (x : Z) :
  (∀ n, 8 ≤ n → Z.testbit x n = false) → u8 x = x.
Proof.
  intros H. unfold u8. change 256 with (2 ^ 8).
  apply Z.bits_inj'; intros n Hn.
  destruct (Z.lt_ge_cases n 8) as [Hlt | Hge].
  - apply Z.mod_pow2_bits_low; lia.
  - rewrite Z.mod_pow2_bits_high by lia. symmetry; apply H; lia.
Qed.

Lemma u8_lor (a b : Z) : 0 ≤ a < 256 → 0 ≤ b < 256 → u8 (Z.lor a b) = Z.lor a b.
Proof.
  intros Ha Hb. apply u8_low_bits; intros n Hn.
  rewrite Z.lor_spec, (byte_high_bits a), (byte_high_bits b); auto.
Qed.

Lemma u8_land_lnot (a b : Z) : 0 ≤ a < 256 → u8 (Z.land a (Z.lnot b)) = Z.land a (Z.lnot b).
Proof.
  intros Ha. apply u8_low_bits; intros n Hn.
  rewrite Z.land_spec, (byte_high_bits a); auto.
Qed.

End bytes.

Section vector.
Context {A : Type}.

Lemma at_index_bounds (v : list A) (i : Z) (x : A) :
  at_index v i = Some x → 0 ≤ i < Z.of_nat (length v).
Proof.
  unfold at_index. destruct (Z.leb_spec 0 i) as [Hi | Hi]; [|discriminate].
  intros Hx%lookup_lt_Some. lia.
Qed.

Lemma store_at_index (v : list A) (i : Z) (x y : A) :
  at_index v i = Some x → store v i y = Some (<[Z.to_nat i := y]> v).
Proof.
  intros Hx%at_index_bounds. unfold store.
  destruct (Z.leb_spec 0 i) as [Hi | Hi]; [|lia].
  destruct (Z.ltb_spec i (Z.of_nat (length v))) as [Hl | Hl]; [done|lia].
Qed.

Lemma at_index_store (v : list A) (i : Z) (x y : A) :
  at_index v i = Some x → at_index (<[Z.to_nat i := y]> v) i = Some y.
Proof.
  intros Hx. pose proof (at_index_bounds _ _ _ Hx) as Hb.
  unfold at_index. destruct (Z.leb_spec 0 i) as [Hi | Hi]; [|lia].
  apply list_lookup_insert_eq. lia.
Qed.

End vector.

Module VmFacts.
Import Vm Examples.

Lemma fetch_some (vm : VM) (b : Z) :
  at_index (rom vm) (PC vm) = Some b →
  fetch vm = Some (b, with_PC (u16 (PC vm + 1)) vm).
Proof. intros H. unfold fetch. rewrite H. reflexivity. Qed.

Lemma set_reg_some (vm : VM) (r a v : Z) :
  get_reg r vm = Some a →
  set_reg r v vm = Some (with_registers (<[Z.to_nat r := v]> (registers vm)) vm).
Proof.
  unfold get_reg, set_reg. intros H.
  rewrite (store_at_index _ _ _ _ H). reflexivity.
Qed.

(** Reduction of reads and writes on a register array of four known
    cells. *)
Ltac registers_cbn :=
  repeat (progress (cbn;
                    change (Z.to_nat 0) with 0%nat;
                    change (Z.to_nat 3) with 3%nat;
                    change (Z.of_nat 4) with 4)).

(** ** C1 *)

(** C1, as the code has it: opcode 0x0C sets the target register to
    target AND NOT source and opcode 0x0B sets it to target OR source;
    opcode 0x0D sets it to the sum of target and immediate, modulo 256. *)
Theorem C1_arithmetic_opcodes (vm : VM) (reg x a : Z) :
  at_index (rom vm) (PC vm) = Some reg →
  at_index (rom vm) (u16 (PC vm + 1)) = Some x →
  get_reg reg vm = Some a →
  0 ≤ a < 256 →
  let next := with_PC (u16 (u16 (PC vm + 1) + 1)) vm in
  (∀ b, get_reg x vm = Some b → 0 ≤ b < 256 →
     execute 0x0C vm
       = Some (NoReturn, with_registers (<[Z.to_nat reg := Z.land a (Z.lnot b)]> (registers vm)) next)
     ∧ execute 0x0B vm
       = Some (NoReturn, with_registers (<[Z.to_nat reg := Z.lor a b]> (registers vm)) next))
  ∧ execute 0x0D vm
      = Some (NoReturn, with_registers (<[Z.to_nat reg := (a + x) mod 256]> (registers vm)) next).
Proof.
  intros Hreg Hx Ha Hbyte next.
  assert (Hf2 : fetch (with_PC (u16 (PC vm + 1)) vm) = Some (x, next))
    by (apply fetch_some; exact Hx).
  split.
  - intros b Hb Hbbyte.
    split; cbn [execute]; unfold reg_reg;
      rewrite (fetch_some _ _ Hreg); cbn [mbind option_bind];
      rewrite Hf2; cbn [mbind option_bind];
      change (get_reg reg next) with (get_reg reg vm);
      change (get_reg x next) with (get_reg x vm);
      rewrite Ha, Hb; cbn [mbind option_bind];
      rewrite (set_reg_some next reg a) by exact Ha; cbn [mbind option_bind].
    + rewrite u8_land_lnot by assumption. reflexivity.
    + rewrite u8_lor by assumption. reflexivity.
  - cbn [execute]. unfold reg_imm.
    rewrite (fetch_some _ _ Hreg); cbn [mbind option_bind].
    rewrite Hf2; cbn [mbind option_bind].
    change (get_reg reg next) with (get_reg reg vm).
    rewrite Ha; cbn [mbind option_bind].
    rewrite (set_reg_some next reg a) by exact Ha. reflexivity.
Qed.

Lemma C1_arithmetic_opcodes_witness :
  get_reg 0 vm_operands = Some 5
  ∧ get_reg 1 vm_operands = Some 3
  ∧ execute 0x0C vm_operands
      = Some (NoReturn, with_registers [4; 3; 0; 0] (with_PC 2 vm_operands))
  ∧ execute 0x0B vm_operands
      = Some (NoReturn, with_registers [7; 3; 0; 0] (with_PC 2 vm_operands))
  ∧ execute 0x0D vm_operands
      = Some (NoReturn, with_registers [6; 3; 0; 0] (with_PC 2 vm_operands)).
Proof.
  pose proof (C1_arithmetic_opcodes vm_operands 0 1 5
                eq_refl eq_refl eq_refl ltac:(lia)) as [Hrr Hri].
  destruct (Hrr 3 eq_refl ltac:(lia)) as [Hsub Hadd].
  split; [reflexivity|]. split; [reflexivity|].
  split; [exact Hsub|]. split; [exact Hadd | exact Hri].
Defined.

(** C1 as stated fails on opcode 0x0D: after [LDA 5], "add" of the
    immediate 5 to register A leaves 10 in A, which is the sum and not
    [5 OR 5 = 5]. *)
Lemma C1_add_immediate_is_a_sum :
  final 10 [0x01; 0x05; 0x0D; 0x00; 0x05; 0x00] = Some ([10; 0; 0; 0], 6, Some 0, [])
  ∧ Z.lor 5 5 ≠ 10.
Proof. split; [vm_compute; reflexivity | discriminate]. Qed.

(** ** C3 *)

(** C3 on the code: [CP 0] sets the zero flag, and the following
    [JMP Z] with the target bytes 01 05 leaves PC = 0x05, not 0x0105;
    [JMP NZ] with the target bytes 00 09 on a cleared zero flag leaves
    PC = 8, not 9; a conditional jump that is not taken leaves PC just
    past its two operand bytes. *)
Theorem C3_jump_target_is_cut_and_adjusted :
  PC <$> after 2 [0x18; 0x00; 0x14; 0x01; 0x05] = Some 0x05
  ∧ PC <$> after 1 [0x15; 0x00; 0x09] = Some 0x08
  ∧ PC <$> after 1 [0x14; 0x01; 0x05] = Some 0x03.
Proof. repeat split; vm_compute; reflexivity. Qed.

(** ** C5 *)

(** C5: after [CP v] with the accumulator equal to [a], whatever the
    flag register held before, it is 1 (zero) when [v = a], 2 (carry)
    when [v > a] and 0 when [a > v]; so the zero bit is set iff [v = a],
    the carry bit iff [v > a], and both are clear iff [a > v].  The case
    ends in [break]. *)
Theorem C5_compare_flags (vm : VM) (a v : Z) :
  at_index (rom vm) (PC vm) = Some v →
  get_reg A_REG vm = Some a →
  length (registers vm) = 4%nat →
  ∃ vm', execute 0x18 vm = Some (NoReturn, vm')
    ∧ get_reg F_REG vm' = Some (if a =? v then ZeroMask else if a <? v then CarryMask else 0)
    ∧ (flag_zero vm' = Some true ↔ v = a)
    ∧ (flag_carry vm' = Some true ↔ a < v)
    ∧ (flag_zero vm' = Some false ∧ flag_carry vm' = Some false ↔ v < a).
Proof.
  intros Hv Ha Hlen.
  cbn [execute]. rewrite (fetch_some _ _ Hv). cbn [mbind option_bind].
  clear Hv.
  destruct vm as [ram0 rom0 regs pc sp out]; cbn in *.
  destruct regs as [|r0 [|r1 [|r2 [|f [|]]]]]; try discriminate Hlen.
  injection Ha as ->.
  unfold flag_zero, flag_carry, isBitSet, set_reg, get_reg, store, at_index.
  unfold A_REG, F_REG, ZeroMask, CarryMask.
  destruct (Z.eqb_spec a v) as [-> | Hne].
  - registers_cbn. rewrite Z.eqb_refl, Z.ltb_irrefl. registers_cbn.
    eexists; split; [reflexivity|].
    registers_cbn. repeat split; try done; try lia. intros [? ?]; discriminate.
  - registers_cbn. destruct (Z.eqb_spec a v) as [? | _]; [done|].
    destruct (Z.ltb_spec v a) as [Hlt | Hge].
    + destruct (Z.ltb_spec a v) as [Hlt' | _]; [lia|]. registers_cbn.
      eexists; split; [reflexivity|].
      registers_cbn. repeat split; try done; try lia.
    + destruct (Z.ltb_spec a v) as [_ | Hge']; [|lia]. registers_cbn.
      eexists; split; [reflexivity|].
      registers_cbn. repeat split; try done; try lia. intros [? ?]; discriminate.
Qed.

Lemma C5_compare_flags_witness :
  get_reg F_REG vm_compare = Some 2
  ∧ ∃ vm', execute 0x18 vm_compare = Some (NoReturn, vm')
      ∧ get_reg F_REG vm' = Some 1
      ∧ (flag_zero vm' = Some true ↔ 9 = 9)
      ∧ (flag_carry vm' = Some true ↔ 9 < 9)
      ∧ (flag_zero vm' = Some false ∧ flag_carry vm' = Some false ↔ 9 < 9).
Proof.
  split; [reflexivity|].
  exact (C5_compare_flags vm_compare 9 9 eq_refl eq_refl eq_refl).
Defined.

(** ** C6 *)




(** ** C9 *)

(** C9 on the code: with the register id 3 as its operand, [NOT] turns
    the flag register from 0 into 0xFF, and the register-immediate "add"
    of 1 turns it into 1; neither program contains a Compare. *)
Theorem C9_register_id_3_writes_flags :
  final 10 [0x12; 0x03; 0x00] = Some ([0; 0; 0; 0xFF], 3, Some 0, [])
  ∧ final 10 [0x0D; 0x03; 0x01; 0x00] = Some ([0; 0; 0; 1], 4, Some 0, []).
Proof. split; vm_compute; reflexivity. Qed.

End VmFacts.

(** * Properties of the assembler *)

Module AssemblerFacts.
Import Assembler Examples.

Lemma bind_Ok {A B : Type} (m : result A) (k : A → result B) (b : B) :
  m ≫= k = Ok b → ∃ a, m = Ok a ∧ k a = Ok b.
Proof. destruct m as [a|e]; [eauto | discriminate]. Qed.

Lemma or_fail_Ok {A : Type} (err : error) (o : option A) (a : A) :
  or_fail err o = Ok a → o = Some a.
Proof. destruct o; intros H; [injection H as ->; reflexivity | discriminate]. Qed.

(** ** What [iss >> token] leaves alone *)

Lemma extract_instr (e : Env) : instr (extract e) = instr e.
Proof. unfold extract. destruct (iss e); reflexivity. Qed.

Lemma extract_asm (e : Env) : asm (extract e) = asm e.
Proof. unfold extract. destruct (iss e); reflexivity. Qed.

Lemma extract_is_label (e : Env) : env_is_label (extract e) = env_is_label e.
Proof. unfold extract. destruct (iss e); reflexivity. Qed.

(** ** Operand bytes *)

Lemma byte_u8 (x : Z) : byte (u8 x).
Proof. unfold byte, u8. apply Z.mod_pos_bound. lia. Qed.

Lemma byte_code (c : ascii) : byte (code c).
Proof. unfold byte, code. pose proof (N_ascii_bounded c). lia. Qed.

Lemma byte_register_codes (c : ascii) (r : Z) : register_codes c = Some r → byte r.
Proof. unfold register_codes, byte. repeat case_match; intros; simplify_eq; lia. Qed.

Lemma byte_get_value (t : string) (v : Z) : get_value t = Ok v → byte v.
Proof.
  unfold get_value. intros H.
  apply bind_Ok in H as (h & _ & H). destruct h.
  - apply bind_Ok in H as (c & _ & H). injection H as <-. apply byte_code.
  - apply bind_Ok in H as (c & _ & H). injection H as <-. apply byte_u8.
Qed.

(** ** The blocks of [parse_line] *)

(** Every path of a block that ended well. *)
Ltac block_inv :=
  repeat match goal with
  | H : or_fail _ _ = Ok _ |- _ => apply or_fail_Ok in H
  | H : _ ≫= _ = Ok _ |- _ => apply bind_Ok in H as (? & ? & H)
  | H : Fail _ = Ok _ |- _ => discriminate H
  | H : Ok _ = Ok _ |- _ => injection H as H; subst
  | H : (_, _) = (_, _) |- _ => injection H as ? ?; subst
  | H : context [match ?x with _ => _ end] |- _ => destruct x eqn:?
  end.

Ltac kept_solve :=
  unfold kept; cbn;
  rewrite ?extract_instr, ?extract_asm, ?extract_is_label; cbn;
  rewrite ?extract_instr, ?extract_asm, ?extract_is_label; cbn;
  rewrite ?extract_instr, ?extract_asm, ?extract_is_label;
  split;
  [ intros [? ?]; split;
    eauto using byte_u8, byte_code, byte_register_codes, byte_get_value
  | auto ].

Lemma kept_refl (e : Env) : kept e e.
Proof. unfold kept. auto. Qed.

Lemma kept_trans (e1 e2 e3 : Env) : kept e1 e2 → kept e2 e3 → kept e1 e3.
Proof.
  unfold kept. intros [Hb1 Hp1] [Hb2 Hp2]. split; [auto|].
  destruct Hp2 as [? | [Hl2 Hq2]]; [auto|].
  destruct Hp1 as [Hl1 | [Hl1 Hq1]].
  - left. congruence.
  - right. split; congruence.
Qed.

Lemma ld_block_kept (e : Env) (f : flow) : ld_block e = Ok f → kept e (flow_env f).
Proof. unfold ld_block. intros H. block_inv; kept_solve. Qed.

Lemma st_block_kept (e : Env) (f : flow) : st_block e = Ok f → kept e (flow_env f).
Proof. unfold st_block. intros H. block_inv; kept_solve. Qed.

Lemma arith_block_kept (e : Env) (f : flow) : arith_block e = Ok f → kept e (flow_env f).
Proof. unfold arith_block. intros H. block_inv; kept_solve. Qed.

Lemma bitwise_block_kept (e : Env) (f : flow) : bitwise_block e = Ok f → kept e (flow_env f).
Proof. unfold bitwise_block. intros H. block_inv; kept_solve. Qed.

Lemma cp_block_kept (e : Env) (f : flow) : cp_block e = Ok f → kept e (flow_env f).
Proof. unfold cp_block. intros H. block_inv; kept_solve. Qed.

Lemma label_block_kept (e : Env) (f : flow) : label_block e = Ok f → kept e (flow_env f).
Proof. unfold label_block. intros H. block_inv; kept_solve. Qed.

Lemma jmp_block_kept (e : Env) (f : flow) : jmp_block e = Ok f → kept e (flow_env f).
Proof. unfold jmp_block, get_label_address. intros H. block_inv; kept_solve. Qed.

Lemma nop_block_kept (e : Env) (f : flow) : nop_block e = Ok f → kept e (flow_env f).
Proof. unfold nop_block. intros H. block_inv; kept_solve. Qed.

Lemma and_then_kept (e : Env) (b k : Env → result flow) (f : flow) :
  (∀ e f, b e = Ok f → kept e (flow_env f)) →
  (∀ e f, k e = Ok f → kept e (flow_env f)) →
  and_then (b e) k = Ok f → kept e (flow_env f).
Proof.
  intros Hb Hk H. unfold and_then in H.
  apply bind_Ok in H as (f0 & Hf0 & H). apply Hb in Hf0.
  destruct f0 as [e' | e'].
  - injection H as <-. exact Hf0.
  - apply Hk in H. exact (kept_trans _ _ _ Hf0 H).
Qed.

Lemma blocks_kept (e : Env) (f : flow) : blocks e = Ok f → kept e (flow_env f).
Proof.
  unfold blocks.
  repeat (apply and_then_kept; [auto using ld_block_kept, st_block_kept,
    arith_block_kept, bitwise_block_kept, cp_block_kept, label_block_kept,
    jmp_block_kept | intros ? ?]).
  apply nop_block_kept.
Qed.

(** A line parsed as an instruction leaves the program as it was and
    has bytes in both operand members. *)
Lemma parse_line_instruction (line : string) (st st1 : Asm) (pl : ParsedLine) :
  parse_line line st = Ok (pl, st1) →
  is_label pl = false →
  program st1 = program st
  ∧ byte (operand1 (instruction pl)) ∧ byte (operand2 (instruction pl)).
Proof.
  unfold parse_line. intros H Hl.
  apply bind_Ok in H as (f & Hf & H).
  apply blocks_kept in Hf. destruct Hf as [Hb Hp].
  rewrite extract_instr, extract_asm, extract_is_label in *. cbn in Hb, Hp.
  destruct (env_is_label (flow_env f)) eqn:Hfl.
  - injection H as <- <-. discriminate Hl.
  - injection H as <- <-. cbn.
    destruct Hp as [? | [_ Hp]]; [discriminate|].
    split; [exact Hp|]. apply Hb. split; apply byte_u8.
Qed.

(** ** The loop of [main] *)

(** The comparison of an operand byte with [EMPTY_OPERAND] never holds,
    so [emit] pushes three bytes. *)
Lemma emit_program (i : Instruction) (a : Asm) :
  byte (operand1 i) → byte (operand2 i) →
  program (emit i a) = program a ++ [opcode i; Some (operand1 i); Some (operand2 i)].
Proof.
  unfold byte, emit, EMPTY_OPERAND. intros H1 H2.
  destruct (Z.eqb_spec (operand1 i) (-1)) as [? | _]; [lia|].
  destruct (Z.eqb_spec (operand2 i) (-1)) as [? | _]; [lia|].
  cbn. rewrite <- !app_assoc. reflexivity.
Qed.

Lemma words_nonempty (line w : string) (ws : list string) :
  words line = w :: ws → (line =? "")%string = false.
Proof.
  intros H.
  destruct (String.eqb_spec line "") as [-> | Hne]; [discriminate H | reflexivity].
Qed.

Lemma main_loop_app (l1 l2 : list string) (st : Asm) :
  main_loop (l1 ++ l2) st = main_loop l1 st ≫= main_loop l2.
Proof.
  revert st. induction l1 as [|line l1 IH]; intros st; [reflexivity|].
  cbn. destruct (main_step line st) as [st1 | err]; cbn; [apply IH | reflexivity].
Qed.

(** An instruction line only appends to the program. *)
Lemma main_step_instruction_line (line : string) (st st' : Asm) :
  instruction_line line →
  main_step line st = Ok st' →
  ∃ rest, program st' = program st ++ rest.
Proof.
  intros Hline. unfold main_step.
  destruct (clean_line line =? "")%string.
  - intros [= <-]. exists []. symmetry. apply app_nil_r.
  - intros H. apply bind_Ok in H as ([pl st1] & Hparse & H).
    pose proof (Hline _ _ _ Hparse) as Hl. rewrite Hl in H. injection H as <-.
    destruct (parse_line_instruction _ _ _ _ Hparse Hl) as (Hp & Hb1 & Hb2).
    rewrite emit_program, Hp by assumption. eauto.
Qed.

Lemma main_loop_instruction_lines (lines : list string) (st st' : Asm) :
  Forall instruction_line lines →
  main_loop lines st = Ok st' →
  ∃ rest, program st' = program st ++ rest.
Proof.
  intros Hlines. revert st.
  induction Hlines as [|line lines Hline _ IH]; intros st.
  - intros [= <-]. exists []. symmetry. apply app_nil_r.
  - cbn. intros H. apply bind_Ok in H as (st1 & Hstep & H).
    destruct (main_step_instruction_line _ _ _ Hline Hstep) as [r1 Hr1].
    destruct (IH _ H) as [r2 Hr2].
    exists (r1 ++ r2). rewrite Hr2, Hr1, app_assoc. reflexivity.
Qed.

(** A jump to a label that is not in [labels] is emitted with the
    placeholder 0xFF 0xFF. *)
Lemma jump_line (line L : string) (op : Z) (st : Asm) :
  jump_to line L op →
  labels st !! L = None →
  ∃ st1, main_step line st = Ok st1
    ∧ program st1 = program st ++ [Some op; Some 0xFF; Some 0xFF].
Proof.
  intros [(cc & Hw & Hcc) | (Hw & Hjc & Hcomma & ->)] Hlab.
  - unfold main_step. rewrite (words_nonempty _ _ _ Hw).
    unfold parse_line. rewrite Hw.
    cbn -[u16 u8]. rewrite Hcc. cbn -[u16 u8].
    unfold get_label_address. cbn -[u16 u8]. rewrite Hlab. cbn -[u16 u8].
    eexists; split; [reflexivity|].
    change (u8 (Z.shiftr (u16 (-1)) 8)) with 255.
    change (u8 (Z.land (u16 (-1)) 255)) with 255.
    cbn. rewrite <- !app_assoc. reflexivity.
  - unfold main_step. rewrite (words_nonempty _ _ _ Hw).
    unfold parse_line. rewrite Hw.
    cbn -[u16 u8]. rewrite Hcomma, Hjc. cbn -[u16 u8].
    unfold get_label_address. cbn -[u16 u8]. rewrite Hlab. cbn -[u16 u8].
    eexists; split; [reflexivity|].
    change (u8 (Z.shiftr (u16 (-1)) 8)) with 255.
    change (u8 (Z.land (u16 (-1)) 255)) with 255.
    cbn. rewrite <- !app_assoc. reflexivity.
Qed.

(** ** C2 *)

(** C2 on the code: of two jumps to the label [end] that precede its
    declaration, the first has its operand bytes overwritten with the
    address 00 07 and the second keeps the placeholder FF FF, because
    [waiting_labels] holds one offset for a label; and the one offset
    recorded for an unconditional jump is that of its opcode byte, so the
    declaration overwrites the opcode and the high operand byte. *)
Theorem C2_one_waiting_offset_per_label :
  summary ["JMP Z, end"; "JMP Z, end"; "end:"]%string
    = Ok ([Some 0x14; Some 0x00; Some 0x07; Some 0x14; Some 0xFF; Some 0xFF],
          7, [("end"%string, 7)], [("end"%string, 2)])
  ∧ summary ["JMP end"; "end:"]%string
    = Ok ([Some 0x00; Some 0x04; Some 0xFF], 4,
          [("end"%string, 4)], [("end"%string, 1)]).
Proof. split; vm_compute; reflexivity. Qed.

(** ** C4 *)



(** ** C7 *)

(** C7, as the code has it: a jump to a label that no earlier line has
    declared is accepted and emitted with the placeholder operand bytes
    FF FF; the assembler has no check at the end of the input, so when the
    lines after the jump are accepted and none of them declares a label,
    assembly ends well with the placeholder still in the program. *)
Theorem C7_undefined_label_is_accepted
    (pre post : list string) (line L : string) (op : Z) (st : Asm) :
  main_loop pre Asm_new = Ok st →
  jump_to line L op →
  labels st !! L = None →
  Forall instruction_line post →
  ∃ st1, main_step line st = Ok st1
    ∧ program st1 = program st ++ [Some op; Some 0xFF; Some 0xFF]
    ∧ ∀ st2, main_loop post st1 = Ok st2 →
        main (pre ++ line :: post) = Ok st2
        ∧ ∃ rest, program st2 = program st ++ [Some op; Some 0xFF; Some 0xFF] ++ rest.
Proof.
  intros Hpre Hjump Hlab Hpost.
  destruct (jump_line _ _ _ _ Hjump Hlab) as (st1 & Hstep & Hprog).
  exists st1. split; [exact Hstep|]. split; [exact Hprog|].
  intros st2 Hrun. split.
  - unfold main. rewrite main_loop_app, Hpre. cbn. rewrite Hstep. exact Hrun.
  - destruct (main_loop_instruction_lines _ _ _ Hpost Hrun) as [rest Hrest].
    exists rest. rewrite Hrest, Hprog, <- app_assoc. reflexivity.
Qed.

Lemma C7_undefined_label_is_accepted_witness :
  ∃ st2, main ["LDA 5"; "JMP Z, nowhere"; "NOP"]%string = Ok st2
    ∧ ∃ rest, program st2
        = [Some 0x01; Some 0x05; Some 0xFF] ++ [Some 0x14; Some 0xFF; Some 0xFF] ++ rest.
Proof.
  assert (Hnop : Forall instruction_line ["NOP"%string]).
  { constructor; [|constructor]. intros st pl st' H.
    injection H as <- _. reflexivity. }
  destruct (C7_undefined_label_is_accepted
              ["LDA 5"%string] ["NOP"%string] "JMP Z, nowhere" "nowhere" 0x14
              (mkAsm [Some 0x01; Some 0x05; Some 0xFF] 3 ∅ ∅)
              eq_refl (or_introl (ex_intro _ "Z,"%string (conj eq_refl eq_refl)))
              eq_refl Hnop)
    as (st1 & Hstep & _ & Hrest).
  injection Hstep as <-.
  eexists. apply Hrest. reflexivity.
Defined.

(** C7 as stated fails: the one-line program [JMP Z, nowhere] is
    assembled without an error, with the placeholder FF FF as the operand
    bytes of the jump. *)
Lemma C7_no_error_for_undefined_label :
  summary ["JMP Z, nowhere"%string]
    = Ok ([Some 0x14; Some 0xFF; Some 0xFF], 3, [], [("nowhere"%string, 2)]).
Proof. vm_compute; reflexivity. Qed.

(** ** C8 *)

(** C8 on the code: from every state a [NOP] line moves the counter by
    one and the program by three bytes; after the single line [NOP] the
    counter is 1 for 3 bytes, after [NOT A] it is 2 for 3 bytes, and a
    label declared after [LDA 1] moves the counter from 3 to 4 with no
    byte emitted. *)
Theorem C8_counter_leaves_program_length :
  (∀ st, ∃ st', main_step "NOP" st = Ok st'
      ∧ address st' = u16 (address st + 1)
      ∧ program st' = program st ++ [Some 0x00; Some 0xFF; Some 0xFF])
  ∧ summary ["NOP"%string] = Ok ([Some 0x00; Some 0xFF; Some 0xFF], 1, [], [])
  ∧ summary ["NOT A"%string] = Ok ([Some 0x12; Some 0x00; Some 0xFF], 2, [], [])
  ∧ summary ["LDA 1"; "loop:"]%string
    = Ok ([Some 0x01; Some 0x01; Some 0xFF], 4, [("loop"%string, 4)], []).
Proof.
  split.
  - intros st. eexists. split; [reflexivity|]. split; [reflexivity|].
    destruct st as [p a l w]. lazy -[app]. rewrite <- !app_assoc. reflexivity.
  - repeat split; vm_compute; reflexivity.
Qed.

(** ** C10 *)




End AssemblerFacts.

(** * More of the virtual machine *)

Section vector_sizes.
Context {A : Type}.

Lemma store_length (v v' : list A) (i : Z) (x : A) :
  store v i x = Some v' → length v' = length v.
Proof. unfold store. case_match; intros [= <-]. apply length_insert. Qed.

End vector_sizes.

Module VmMore.
Import Vm Examples VmFacts.

(** Every path of [execute] that returned. *)
Ltac exec_inv :=
  repeat match goal with
  | H : _ ≫= _ = Some _ |- _ => apply bind_Some in H as (? & ? & H)
  | H : Some _ = Some _ |- _ => injection H as H; subst
  | H : None = Some _ |- _ => discriminate H
  | H : (_, _) = (_, _) |- _ => injection H as ? ?; subst
  | H : context [match ?x with _ => _ end] |- _ => destruct x eqn:?
  | H : store _ _ _ = Some _ |- _ => apply store_length in H
  end.

Ltac exec_unfold :=
  unfold execute, reg_reg, reg_imm, fetch_pair, fetch, flag_zero, flag_carry,
    set_reg, set_ram, get_reg.

Lemma execute_shape (op : Z) (vm vm' : VM) (r : returned) :
  execute op vm = Some (r, vm') → same_shape vm vm'.
Proof.
  exec_unfold. intros H. exec_inv.
  all: unfold same_shape; cbn in *; repeat split; auto; congruence.
Qed.

(** An opcode that is not a jump never moves the program counter back. *)
Lemma execute_advances (op : Z) (vm vm' : VM) (r : returned) :
  is_jump op = false →
  Z.of_nat (length (rom vm)) < 65536 →
  execute op vm = Some (r, vm') →
  PC vm ≤ PC vm'.
Proof.
  unfold is_jump. exec_unfold. intros Hj Hlen H. exec_inv.
  all: try (cbn in Hj; discriminate Hj).
  all: repeat match goal with
       | H : at_index (rom _) _ = Some _ |- _ => apply at_index_bounds in H
       end.
  all: cbn in *; unfold u16 in *; try lia.
  all: Z.div_mod_to_equations; lia.
Qed.

Lemma fetch_pair_some (vm : VM) (hi lo : Z) :
  at_index (rom vm) (PC vm) = Some hi →
  at_index (rom vm) (u16 (PC vm + 1)) = Some lo →
  fetch_pair vm
  = Some (Z.lor (Z.shiftl hi 8) lo, with_PC (u16 (u16 (PC vm + 1) + 1)) vm).
Proof.
  intros H1 H2. unfold fetch_pair.
  rewrite (fetch_some _ _ H1). cbn [mbind option_bind].
  rewrite (fetch_some (with_PC _ vm) lo H2). reflexivity.
Qed.

(** The conversion of the pair to [uint8_t] leaves its low byte. *)
Lemma u8_pair (hi lo : Z) : byte lo → u8 (Z.lor (Z.shiftl hi 8) lo) = lo.
Proof.
  intros Hlo. unfold u8. change 256 with (2 ^ 8).
  apply Z.bits_inj'; intros n Hn.
  destruct (Z.lt_ge_cases n 8) as [Hlt | Hge].
  - rewrite Z.mod_pow2_bits_low, Z.lor_spec, Z.shiftl_spec_low by lia. reflexivity.
  - rewrite Z.mod_pow2_bits_high by lia. symmetry. apply byte_high_bits; assumption.
Qed.

Lemma u16_byte (b : Z) : byte b → u16 b = b.
Proof. unfold byte, u16. intros H. apply Z.mod_small. lia. Qed.

Lemma u8_land (a b : Z) : byte a → u8 (Z.land a b) = Z.land a b.
Proof.
  intros Ha. apply u8_low_bits; intros n Hn.
  rewrite Z.land_spec, (byte_high_bits a); auto.
Qed.

Lemma u8_lxor (a b : Z) : byte a → byte b → u8 (Z.lxor a b) = Z.lxor a b.
Proof.
  intros Ha Hb. apply u8_low_bits; intros n Hn.
  rewrite Z.lxor_spec, (byte_high_bits a), (byte_high_bits b); auto.
Qed.

Lemma u8_lnot (a : Z) : byte a → u8 (Z.lnot a) = 255 - a.
Proof.
  unfold byte, u8. intros Ha.
  replace (Z.lnot a) with (255 - a + (-1) * 256) by (unfold Z.lnot; lia).
  rewrite Z.mod_add by lia. apply Z.mod_small. lia.
Qed.

(** ** X1 *)

(** X1: whatever the opcode and the state, an [execute] that comes back
    leaves the ROM and the stack pointer as they were and the RAM and
    the register array at their sizes; it returns -1 or is left without
    a [return]; and the console is as it was or has the opcode as its
    one new entry. *)
Theorem X1_execute_keeps_shape (op : Z) (vm vm' : VM) (r : returned) :
  execute op vm = Some (r, vm') →
  same_shape vm vm'
  ∧ (r = Returns (-1) ∨ r = NoReturn)
  ∧ (console vm' = console vm ∨ console vm' = console vm ++ [op]).
Proof.
  exec_unfold. intros H. exec_inv.
  all: unfold same_shape; cbn in *; repeat split; auto; congruence.
Qed.

Lemma X1_execute_keeps_shape_witness :
  same_shape vm_operands (with_registers [6; 3; 0; 0] (with_PC 2 vm_operands))
  ∧ ((NoReturn = Returns (-1) ∨ NoReturn = NoReturn)
  ∧ (console (with_registers [6; 3; 0; 0] (with_PC 2 vm_operands)) = console vm_operands
     ∨ console (with_registers [6; 3; 0; 0] (with_PC 2 vm_operands))
       = console vm_operands ++ [0x0D])).
Proof.
  exact (X1_execute_keeps_shape 0x0D vm_operands
           (with_registers [6; 3; 0; 0] (with_PC 2 vm_operands)) NoReturn eq_refl).
Defined.

(** ** X2 *)

(** X2: when no byte of a ROM of fewer than 65536 bytes is a jump
    opcode, [run] is over (the loop left, or an undefined access) after
    at most as many instructions as there are bytes from the program
    counter to the end of ROM. *)
Theorem X2_run_without_jumps_ends (fuel : nat) (vm : VM) :
  jump_free (rom vm) = true →
  Z.of_nat (length (rom vm)) < 65536 →
  (0 < fuel)%nat →
  Z.of_nat (length (rom vm)) - PC vm < Z.of_nat fuel →
  ended (run fuel vm) = true.
Proof.
  revert vm. induction fuel as [|fuel IH]; intros vm Hfree Hlen Hpos Hfuel; [lia|].
  cbn [run].
  destruct (Z.ltb_spec (PC vm) (Z.of_nat (length (rom vm)))) as [Hpc | Hpc];
    [|reflexivity].
  destruct (fetch vm) as [[b vm1]|] eqn:Hf; [|reflexivity].
  destruct (execute b vm1) as [[r vm2]|] eqn:Hex; [|reflexivity].
  destruct (is_exit r); [reflexivity|].
  unfold fetch in Hf. apply bind_Some in Hf as (b' & Hb & Hf). injection Hf as -> <-.
  pose proof (at_index_bounds _ _ _ Hb) as Hb'.
  assert (Hjb : is_jump b = false).
  { unfold at_index in Hb. destruct (0 <=? PC vm); [|discriminate].
    apply list_elem_of_lookup_2, list_elem_of_In in Hb.
    unfold jump_free in Hfree. rewrite forallb_forall in Hfree.
    apply negb_true_iff, Hfree, Hb. }
  destruct (execute_shape _ _ _ _ Hex) as (Hrom & _).
  pose proof (execute_advances b (with_PC (u16 (PC vm + 1)) vm) vm2 r Hjb Hlen Hex)
    as Hadv.
  cbn in Hrom, Hadv. unfold u16 in Hadv. rewrite Z.mod_small in Hadv by lia.
  apply IH; rewrite ?Hrom; auto; lia.
Qed.

Lemma X2_run_without_jumps_ends_witness :
  ended (run 4097 (vm_with [0x01; 0x05; 0x0D; 0x00; 0x03; 0x03; 0x00; 0x00; 0x00])) = true.
Proof.
  apply X2_run_without_jumps_ends; [reflexivity | reflexivity | lia | reflexivity].
Defined.

(** ** X3 *)

(** X3: every jump opcode takes the low byte of its two operand bytes as
    the target.  0x13 sets PC to it; 0x14 and 0x16 do when the zero or
    the carry flag is set, 0x17 when the carry flag is clear; 0x15 sets
    PC to the low byte minus one, modulo 65536, when the zero flag is
    clear; a jump not taken leaves PC past the two bytes. *)
Theorem X3_jump_targets (vm : VM) (hi lo : Z) (zero carry : bool) :
  at_index (rom vm) (PC vm) = Some hi →
  at_index (rom vm) (u16 (PC vm + 1)) = Some lo →
  byte lo →
  flag_zero vm = Some zero →
  flag_carry vm = Some carry →
  let next := with_PC (u16 (u16 (PC vm + 1) + 1)) vm in
  execute 0x13 vm = Some (NoReturn, with_PC lo vm)
  ∧ execute 0x14 vm = Some (NoReturn, if zero then with_PC lo vm else next)
  ∧ execute 0x15 vm = Some (NoReturn, if zero then next else with_PC (u16 (lo - 1)) vm)
  ∧ execute 0x16 vm = Some (NoReturn, if carry then with_PC lo vm else next)
  ∧ execute 0x17 vm = Some (NoReturn, if carry then next else with_PC lo vm).
Proof.
  intros Hhi Hlo Hb Hz Hc next.
  pose proof (fetch_pair_some _ _ _ Hhi Hlo) as Hpair. fold next in Hpair.
  cbn [execute]. rewrite !Hpair. cbn [mbind option_bind].
  change (flag_zero next) with (flag_zero vm).
  change (flag_carry next) with (flag_carry vm).
  rewrite Hz, Hc. cbn [mbind option_bind].
  rewrite u8_pair, u16_byte by assumption.
  destruct zero, carry; repeat split; reflexivity.
Qed.

Lemma X3_jump_targets_witness :
  execute 0x13 (vm_with [0x01; 0x05]) = Some (NoReturn, with_PC 0x05 (vm_with [0x01; 0x05]))
  ∧ execute 0x15 (vm_with [0x01; 0x05]) = Some (NoReturn, with_PC 0x04 (vm_with [0x01; 0x05])).
Proof.
  assert (Hb : byte 0x05) by (unfold byte; lia).
  destruct (X3_jump_targets (vm_with [0x01; 0x05]) 0x01 0x05 false false
              eq_refl eq_refl Hb eq_refl eq_refl) as (H13 & _ & H15 & _).
  split; [exact H13 | exact H15].
Defined.

(** ** X4 *)

(** X4: a [JMP NZ] whose target has the low byte 0, met with the zero
    flag clear, does not jump into the program: it sets PC to 0xFFFF and
    [run] stops there, with nothing else changed. *)
Theorem X4_jump_nz_to_low_byte_zero_stops (vm : VM) (hi : Z) (fuel : nat) :
  at_index (rom vm) (PC vm) = Some 0x15 →
  at_index (rom vm) (u16 (PC vm + 1)) = Some hi →
  at_index (rom vm) (u16 (u16 (PC vm + 1) + 1)) = Some 0 →
  flag_zero vm = Some false →
  Z.of_nat (length (rom vm)) ≤ 65535 →
  run (S (S fuel)) vm = Stopped (with_PC 65535 vm).
Proof.
  intros Hop Hhi Hlo Hz Hlen.
  pose proof (at_index_bounds _ _ _ Hop) as Hpc.
  cbn [run].
  destruct (Z.ltb_spec (PC vm) (Z.of_nat (length (rom vm)))) as [_|?]; [|lia].
  rewrite (fetch_some _ _ Hop). cbn [execute].
  rewrite (fetch_pair_some (with_PC _ vm) hi 0 Hhi Hlo). cbn [mbind option_bind].
  change (flag_zero (with_PC _ (with_PC _ vm))) with (flag_zero vm).
  rewrite Hz. cbn [mbind option_bind negb].
  rewrite u8_pair by (unfold byte; lia).
  change (u16 (0 - 1)) with 65535. cbn.
  destruct (Z.ltb_spec 65535 (Z.of_nat (length (rom vm)))) as [?|_]; [lia|].
  reflexivity.
Qed.

Lemma X4_jump_nz_to_low_byte_zero_stops_witness :
  run 2 (vm_with [0x15; 0x00; 0x00]) = Stopped (with_PC 65535 (vm_with [0x15; 0x00; 0x00])).
Proof.
  apply (X4_jump_nz_to_low_byte_zero_stops (vm_with [0x15; 0x00; 0x00]) 0x00 0);
    [reflexivity | reflexivity | reflexivity | reflexivity | discriminate].
Defined.

(** ** X5 *)

(** X5: [STA] with an address inside RAM writes the accumulator to that
    one cell and touches no register, and a later [LDA] from the same
    address on any machine with that RAM reads the value back; with an
    address at or past the end of RAM the store is an access outside the
    vector. *)
Theorem X5_store_then_load (vm : VM) (hi lo a : Z) :
  at_index (rom vm) (PC vm) = Some hi →
  at_index (rom vm) (u16 (PC vm + 1)) = Some lo →
  get_reg A_REG vm = Some a →
  let location := u16 (Z.lor (Z.shiftl hi 8) lo) in
  (location < Z.of_nat (length (ram vm)) →
     ∃ vm1, execute 0x03 vm = Some (NoReturn, vm1)
       ∧ ram vm1 = <[Z.to_nat location := a]> (ram vm)
       ∧ registers vm1 = registers vm
       ∧ ∀ vm2, ram vm2 = ram vm1 → length (registers vm2) = 4%nat →
           at_index (rom vm2) (PC vm2) = Some hi →
           at_index (rom vm2) (u16 (PC vm2 + 1)) = Some lo →
           ∃ vm3, execute 0x0A vm2 = Some (NoReturn, vm3) ∧ get_reg A_REG vm3 = Some a)
  ∧ (Z.of_nat (length (ram vm)) ≤ location → execute 0x03 vm = None).
Proof.
  intros Hhi Hlo Ha location.
  assert (Hloc : 0 ≤ location) by (apply Z.mod_pos_bound; lia).
  split.
  - intros Hin.
    cbn [execute]. rewrite (fetch_pair_some vm _ _ Hhi Hlo). cbn [mbind option_bind].
    change (get_reg A_REG (with_PC _ vm)) with (get_reg A_REG vm). rewrite Ha.
    cbn [mbind option_bind]. unfold set_ram, store. fold location. cbn [ram with_PC].
    destruct (Z.leb_spec 0 location) as [_|?]; [|lia].
    destruct (Z.ltb_spec location (Z.of_nat (length (ram vm)))) as [_|?]; [|lia].
    cbn. eexists. split; [reflexivity|]. split; [reflexivity|]. split; [reflexivity|].
    intros vm2 Hram Hregs H1 H2. cbn in Hram.
    cbn [execute]. rewrite (fetch_pair_some vm2 _ _ H1 H2). cbn [mbind option_bind].
    fold location. cbn [ram with_PC]. rewrite Hram.
    unfold at_index at 1. destruct (Z.leb_spec 0 location) as [_|?]; [|lia].
    rewrite list_lookup_insert_eq by lia. cbn [mbind option_bind].
    destruct (registers vm2) as [|r0 regs] eqn:Hr; [discriminate Hregs|].
    unfold set_reg, store. cbn [registers with_PC]. rewrite Hr. cbn.
    eexists. split; reflexivity.
  - intros Hout.
    cbn [execute]. rewrite (fetch_pair_some vm _ _ Hhi Hlo). cbn [mbind option_bind].
    change (get_reg A_REG (with_PC _ vm)) with (get_reg A_REG vm). rewrite Ha.
    cbn [mbind option_bind]. unfold set_ram, store. fold location. cbn [ram with_PC].
    destruct (Z.ltb_spec location (Z.of_nat (length (ram vm)))) as [?|_]; [lia|].
    rewrite andb_false_r. reflexivity.
Qed.

Lemma X5_store_then_load_witness :
  ∃ vm1, execute 0x03 (vm_with_registers [5; 0; 0; 0] [0x00; 0x10]) = Some (NoReturn, vm1)
    ∧ at_index (ram vm1) 0x10 = Some 5.
Proof.
  destruct (X5_store_then_load (vm_with_registers [5; 0; 0; 0] [0x00; 0x10]) 0x00 0x10 5
              eq_refl eq_refl eq_refl) as [Hin _].
  destruct (Hin eq_refl) as (vm1 & Hex & Hram & _).
  exists vm1. split; [exact Hex|]. rewrite Hram. reflexivity.
Defined.

(** ** X6 *)

(** X6: the register-to-register loads 0x02, 0x05 and 0x08 copy the
    register named by the operand byte into A, B and C; the operand 3
    names the flag register, so a program can read F; an operand outside
    0 to 3 is an access outside the register array. *)
Theorem X6_load_from_register (vm : VM) (reg : Z) :
  at_index (rom vm) (PC vm) = Some reg →
  length (registers vm) = 4%nat →
  let next := with_PC (u16 (PC vm + 1)) vm in
  (0 ≤ reg < 4 →
     ∃ v, get_reg reg vm = Some v
       ∧ execute 0x02 vm = Some (NoReturn, with_registers (<[0%nat := v]> (registers vm)) next)
       ∧ execute 0x05 vm = Some (NoReturn, with_registers (<[1%nat := v]> (registers vm)) next)
       ∧ execute 0x08 vm = Some (NoReturn, with_registers (<[2%nat := v]> (registers vm)) next))
  ∧ (¬ 0 ≤ reg < 4 →
       execute 0x02 vm = None ∧ execute 0x05 vm = None ∧ execute 0x08 vm = None).
Proof.
  intros Hreg Hlen next.
  destruct (registers vm) as [|r0 [|r1 [|r2 [|r3 [|]]]]] eqn:Hr; try discriminate Hlen.
  split.
  - intros Hin.
    assert (Hv : ∃ v, at_index [r0; r1; r2; r3] reg = Some v).
    { unfold at_index. destruct (Z.leb_spec 0 reg); [|lia].
      apply lookup_lt_is_Some. cbn. lia. }
    destruct Hv as [v Hv]. exists v. unfold get_reg. rewrite Hr. split; [exact Hv|].
    cbn [execute]. rewrite (fetch_some _ _ Hreg). cbn [mbind option_bind].
    unfold get_reg, set_reg. cbn [registers with_PC]. rewrite Hr, Hv.
    repeat split; reflexivity.
  - intros Hout.
    assert (Hv : at_index [r0; r1; r2; r3] reg = None).
    { unfold at_index. destruct (Z.leb_spec 0 reg); [|reflexivity].
      apply lookup_ge_None. cbn. lia. }
    cbn [execute]. rewrite (fetch_some _ _ Hreg). cbn [mbind option_bind].
    unfold get_reg. cbn [registers with_PC]. rewrite Hr, Hv.
    repeat split; reflexivity.
Qed.

Lemma X6_load_from_register_witness :
  execute 0x02 (vm_with_registers [0; 0; 0; 2] [0x03])
  = Some (NoReturn, with_registers [2; 0; 0; 2] (with_PC 1 (vm_with_registers [0; 0; 0; 2] [0x03]))).
Proof.
  destruct (X6_load_from_register (vm_with_registers [0; 0; 0; 2] [0x03]) 0x03
              eq_refl eq_refl) as [Hin _].
  assert (Hreg : 0 ≤ 0x03 < 4) by lia.
  destruct (Hin Hreg) as (v & Hv & HA & _).
  injection Hv as <-. exact HA.
Defined.

(** ** X7 *)

(** X7: on byte values, opcode 0x0F sets the target register to target
    AND source, 0x10 to target OR source, 0x11 to target XOR source,
    0x0E to target AND NOT immediate, and 0x12 to 255 minus its value;
    the two-operand forms leave PC two bytes on, [NOT] one byte on. *)
Theorem X7_bitwise_opcodes (vm : VM) (reg x a : Z) :
  at_index (rom vm) (PC vm) = Some reg →
  at_index (rom vm) (u16 (PC vm + 1)) = Some x →
  get_reg reg vm = Some a →
  byte a →
  let next := with_PC (u16 (u16 (PC vm + 1) + 1)) vm in
  let put v vm := with_registers (<[Z.to_nat reg := v]> (registers vm)) vm in
  (∀ b, get_reg x vm = Some b → byte b →
     execute 0x0F vm = Some (NoReturn, put (Z.land a b) next)
     ∧ execute 0x10 vm = Some (NoReturn, put (Z.lor a b) next)
     ∧ execute 0x11 vm = Some (NoReturn, put (Z.lxor a b) next))
  ∧ execute 0x0E vm = Some (NoReturn, put (Z.land a (Z.lnot x)) next)
  ∧ execute 0x12 vm = Some (NoReturn, put (255 - a) (with_PC (u16 (PC vm + 1)) vm)).
Proof.
  intros Hreg Hx Ha Hbyte next put.
  assert (Hf2 : fetch (with_PC (u16 (PC vm + 1)) vm) = Some (x, next))
    by (apply fetch_some; exact Hx).
  split; [|split].
  - intros b Hb Hbbyte.
    repeat split; cbn [execute]; unfold reg_reg;
      rewrite (fetch_some _ _ Hreg); cbn [mbind option_bind];
      rewrite Hf2; cbn [mbind option_bind];
      change (get_reg reg next) with (get_reg reg vm);
      change (get_reg x next) with (get_reg x vm);
      rewrite Ha, Hb; cbn [mbind option_bind];
      rewrite (set_reg_some next reg a) by exact Ha; cbn [mbind option_bind].
    + rewrite u8_land by assumption. reflexivity.
    + rewrite u8_lor by assumption. reflexivity.
    + rewrite u8_lxor by assumption. reflexivity.
  - cbn [execute]. unfold reg_imm.
    rewrite (fetch_some _ _ Hreg); cbn [mbind option_bind].
    rewrite Hf2; cbn [mbind option_bind].
    change (get_reg reg next) with (get_reg reg vm).
    rewrite Ha; cbn [mbind option_bind].
    rewrite (set_reg_some next reg a) by exact Ha.
    rewrite u8_land by assumption. reflexivity.
  - cbn [execute]. rewrite (fetch_some _ _ Hreg); cbn [mbind option_bind].
    change (get_reg reg (with_PC _ vm)) with (get_reg reg vm).
    rewrite Ha; cbn [mbind option_bind].
    rewrite (set_reg_some (with_PC _ vm) reg a) by exact Ha.
    rewrite u8_lnot by assumption. reflexivity.
Qed.

Lemma X7_bitwise_opcodes_witness :
  execute 0x11 vm_operands = Some (NoReturn, with_registers [6; 3; 0; 0] (with_PC 2 vm_operands))
  ∧ execute 0x12 vm_operands = Some (NoReturn, with_registers [250; 3; 0; 0] (with_PC 1 vm_operands)).
Proof.
  assert (Ha : byte 5) by (unfold byte; lia).
  assert (Hb : byte 3) by (unfold byte; lia).
  destruct (X7_bitwise_opcodes vm_operands 0 1 5 eq_refl eq_refl eq_refl Ha)
    as (Hrr & _ & Hnot).
  destruct (Hrr 3 eq_refl Hb) as (_ & _ & Hxor).
  split; [exact Hxor | exact Hnot].
Defined.

(** ** X8 *)

(** X8: [load_program] of a program no longer than ROM sets PC to 0,
    puts the program at the start of ROM, leaves the rest of ROM, the RAM
    and the registers as they were and keeps the size of ROM; a longer
    program makes the copy run past the end of ROM. *)
Theorem X8_load_program_bounds (program : list Z) (vm : VM) :
  ((length program ≤ length (rom vm))%nat →
     ∃ vm', load_program program vm = Some vm'
       ∧ PC vm' = 0
       ∧ length (rom vm') = length (rom vm)
       ∧ (∀ i, (i < length program)%nat → rom vm' !! i = program !! i)
       ∧ (∀ i, (length program ≤ i)%nat → rom vm' !! i = rom vm !! i)
       ∧ ram vm' = ram vm ∧ registers vm' = registers vm)
  ∧ ((length (rom vm) < length program)%nat → load_program program vm = None).
Proof.
  unfold load_program. split.
  - intros Hle. destruct (Nat.leb_spec (length program) (length (rom vm))); [|lia].
    eexists. split; [reflexivity|]. cbn.
    split; [reflexivity|]. split.
    { rewrite length_app, length_drop. lia. }
    split. { intros i Hi. apply lookup_app_l. exact Hi. }
    split; [|split; reflexivity].
    intros i Hi. rewrite lookup_app_r by exact Hi. rewrite lookup_drop.
    f_equal. lia.
  - intros Hgt.
    destruct (Nat.leb_spec (length program) (length (rom vm))); [lia|reflexivity].
Qed.

(** ** X9 *)

Lemma print_cells_spec (cells : list Z) (k i v : Z) :
  (i, v) ∈ print_cells k cells ↔ k ≤ i ∧ cells !! Z.to_nat (i - k) = Some v ∧ v ≠ 0.
Proof.
  revert k. induction cells as [|c cells IH]; intros k; cbn.
  - split; [intros H; inversion H | intros (_ & H & _); discriminate].
  - rewrite elem_of_app, IH. split.
    + intros [H | (Hk & Hl & Hv)].
      * destruct (Z.eqb_spec c 0); [inversion H|].
        apply list_elem_of_singleton in H. injection H as -> ->.
        rewrite Z.sub_diag. cbn. auto with lia.
      * split; [lia|]. split; [|exact Hv].
        replace (Z.to_nat (i - k)) with (S (Z.to_nat (i - (k + 1)))) by lia. exact Hl.
    + intros (Hk & Hl & Hv).
      destruct (Z.eq_dec i k) as [-> | Hne].
      * rewrite Z.sub_diag in Hl. cbn in Hl. injection Hl as ->.
        left. destruct (Z.eqb_spec v 0); [done|]. apply list_elem_of_singleton. reflexivity.
      * right. split; [lia|]. split; [|exact Hv].
        replace (Z.to_nat (i - k)) with (S (Z.to_nat (i - (k + 1)))) in Hl by lia.
        exact Hl.
Qed.

(** X9: [memory_print] writes a line for the address [i] with the value
    [v] exactly when RAM holds [v] at [i] and [v] is not zero. *)
Theorem X9_memory_print_cells (vm : VM) (i v : Z) :
  (i, v) ∈ memory_print vm ↔ at_index (ram vm) i = Some v ∧ v ≠ 0.
Proof.
  unfold memory_print, at_index. rewrite print_cells_spec, Z.sub_0_r.
  destruct (Z.leb_spec 0 i); split; intros; destruct_and?;
    repeat split; auto; try lia; try discriminate.
Qed.

(** ** X25 *)

(** X25: only the store opcodes 0x03, 0x06 and 0x09 write to RAM: every
    other opcode that returns leaves RAM as it was, and a store that
    returns has written one cell inside RAM and no register. *)
Theorem X25_ram_changes_only_by_stores (op : Z) (vm vm' : VM) (r : returned) :
  execute op vm = Some (r, vm') →
  (is_store op = false → ram vm' = ram vm)
  ∧ (is_store op = true →
       ∃ location v, 0 ≤ location < Z.of_nat (length (ram vm))
         ∧ ram vm' = <[Z.to_nat location := v]> (ram vm)
         ∧ registers vm' = registers vm).
Proof.
  unfold is_store. exec_unfold. unfold store. intros H.
  repeat match goal with
  | H : _ ≫= _ = Some _ |- _ => apply bind_Some in H as (? & ? & H)
  | H : Some _ = Some _ |- _ => injection H as H; subst
  | H : None = Some _ |- _ => discriminate H
  | H : (_, _) = (_, _) |- _ => injection H as ? ?; subst
  | H : context [match ?x with _ => _ end] |- _ => destruct x eqn:?
  end.
  all: cbn in *; split; intros Hs; try discriminate Hs; try reflexivity.
  all: repeat match goal with
       | H : _ && _ = true |- _ => apply andb_true_iff in H as [? ?]
       end.
  all: eexists _, _; split; [|split; reflexivity]; lia.
Qed.

Lemma X25_ram_changes_only_by_stores_witness :
  ram (with_registers [6; 3; 0; 0] (with_PC 2 vm_operands)) = ram vm_operands.
Proof.
  exact (proj1 (X25_ram_changes_only_by_stores 0x0D vm_operands
                  (with_registers [6; 3; 0; 0] (with_PC 2 vm_operands)) NoReturn eq_refl)
               eq_refl).
Defined.

End VmMore.

(** * More of the assembler *)

Module AssemblerMore.
Import Assembler Examples AssemblerFacts.

(** ** Strings *)

Lemma append_cons (c : ascii) (s t : string) : String c s +:+ t = String c (s +:+ t).
Proof. reflexivity. Qed.

Lemma append_nil_r (s : string) : s +:+ "" = s.
Proof. induction s as [|c s IH]; [reflexivity|]. rewrite append_cons, IH. reflexivity. Qed.

Lemma append_snoc (s t : string) (c : ascii) :
  (s +:+ String c "") +:+ t = s +:+ String c t.
Proof. induction s as [|x s IH]; [reflexivity|]. rewrite !append_cons, IH. reflexivity. Qed.

Lemma all_chars_app (p : ascii → bool) (s t : string) :
  all_chars p (s +:+ t) = all_chars p s && all_chars p t.
Proof.
  induction s as [|c s IH]; [reflexivity|].
  rewrite append_cons. cbn. rewrite IH, andb_assoc. reflexivity.
Qed.

(** ** X10 *)

(** X10: [clean_line] keeps exactly the text before the first
    semicolon, and all of a line that has none. *)
Theorem X10_clean_line_keeps_text_before_semicolon (a b : string) :
  without ";" a = true →
  clean_line (a +:+ String ";" b) = a ∧ clean_line a = a.
Proof.
  unfold clean_line, without. induction a as [|c a IH]; cbn.
  - auto.
  - intros [Hc Ha]%andb_true_iff. apply negb_true_iff in Hc.
    rewrite append_cons. cbn. rewrite Hc.
    destruct (IH Ha) as [H1 H2]. rewrite H1, H2. auto.
Qed.

Lemma X10_clean_line_keeps_text_before_semicolon_witness :
  clean_line "LDA 5 ; load five" = "LDA 5 "%string ∧ clean_line "LDA 5 " = "LDA 5 "%string.
Proof.
  exact (X10_clean_line_keeps_text_before_semicolon "LDA 5 " " load five" eq_refl).
Defined.

(** ** X11 *)

Lemma words_from_proper (s cur : string) :
  spaceless cur = true → Forall proper_word (words_from cur s).
Proof.
  revert cur. induction s as [|c s IH]; intros cur Hcur; cbn.
  - destruct (String.eqb_spec cur ""); constructor; [|constructor]. split; assumption.
  - destruct (is_space c) eqn:Hc.
    + destruct (String.eqb_spec cur "").
      * apply IH. reflexivity.
      * constructor; [split; assumption|]. apply IH. reflexivity.
    + apply IH. unfold spaceless in *.
      rewrite all_chars_app, Hcur. cbn. rewrite Hc. reflexivity.
Qed.

Lemma words_from_split (a b cur : string) (c : ascii) :
  is_space c = true →
  words_from cur (a +:+ String c b) = words_from cur a ++ words b.
Proof.
  intros Hc. revert cur. induction a as [|x a IH]; intros cur.
  - change ("" +:+ String c b) with (String c b). cbn.
    rewrite Hc. unfold words. destruct (cur =? "")%string; reflexivity.
  - rewrite append_cons. cbn. destruct (is_space x).
    + destruct (cur =? "")%string; cbn; rewrite IH; reflexivity.
    + apply IH.
Qed.

Lemma words_from_word (w cur : string) :
  spaceless w = true →
  words_from cur w = if (cur +:+ w =? "")%string then [] else [cur +:+ w].
Proof.
  revert cur. induction w as [|c w IH]; intros cur; cbn.
  - intros _. rewrite append_nil_r. reflexivity.
  - intros [Hc Hw]%andb_true_iff. apply negb_true_iff in Hc. rewrite Hc.
    rewrite (IH _ Hw), append_snoc. reflexivity.
Qed.

Lemma words_blank (s : string) : blank s = true → words s = [].
Proof.
  unfold words, blank. induction s as [|c s IH]; cbn; [reflexivity|].
  intros [Hc Hs]%andb_true_iff. rewrite Hc. cbn. apply IH. exact Hs.
Qed.

(** X11: the words extracted from a line are its maximal runs of
    characters that are not white space: each is non-empty and free of
    white space, splitting the line at a white-space character splits
    the list of words, a line that is one such run is its own single
    word, and a line of white space has no word. *)
Theorem X11_words_are_the_runs_between_white_space (line : string) :
  Forall proper_word (words line)
  ∧ (∀ a b c, line = a +:+ String c b → is_space c = true →
       words line = words a ++ words b)
  ∧ (proper_word line → words line = [line])
  ∧ (blank line = true → words line = []).
Proof.
  split; [apply words_from_proper; reflexivity|]. split; [|split].
  - intros a b c -> Hc. apply words_from_split. exact Hc.
  - intros [Hne Hs]. unfold words. rewrite (words_from_word _ _ Hs).
    change ("" +:+ line) with line.
    apply String.eqb_neq in Hne. rewrite Hne. reflexivity.
  - apply words_blank.
Qed.

(** ** X12 *)

(** X12: a line that is not empty once its comment is cut off but holds
    white space only is not skipped: no word is extracted, the token
    stays empty, and [parse_line] calls [back()] on the empty token. *)
Theorem X12_blank_line_is_undefined (line : string) (st : Asm) :
  clean_line line ≠ ""%string →
  blank (clean_line line) = true →
  main_step line st = Fail undefined_behaviour.
Proof.
  intros Hne Hblank. unfold main_step, parse_line.
  apply String.eqb_neq in Hne. rewrite Hne, (words_blank _ Hblank).
  reflexivity.
Qed.

Lemma X12_blank_line_is_undefined_witness :
  main_step "  ; only a comment" Asm_new = Fail undefined_behaviour.
Proof.
  apply X12_blank_line_is_undefined; [discriminate | reflexivity].
Defined.

(** ** X13 *)

(** X13: when [is_register] answers true, the token it leaves is the
    argument in upper case cut at its first comma, it is one of A, B and
    C, and [register_codes.at] of its last character is a code from 0 to
    2: the lookups that follow [is_register] in [parse_line] do not
    throw. *)
Theorem X13_is_register_gives_a_code (t t' : string) :
  is_register t = (true, t') →
  t' = erase_from "," (upper t)
  ∧ t' ∈ registers
  ∧ ∃ c r, back t' = Some c ∧ register_codes c = Some r ∧ 0 ≤ r ≤ 2.
Proof.
  unfold is_register. intros H0. injection H0 as H Ht. subst t'.
  split; [reflexivity|].
  cbn in H. rewrite !orb_true_iff, !String.eqb_eq in H.
  destruct H as [H | [H | [H | H]]]; try discriminate H; rewrite H.
  - split; [unfold registers; set_solver|]. exists "A"%char, 0. repeat split; lia.
  - split; [unfold registers; set_solver|]. exists "B"%char, 1. repeat split; lia.
  - split; [unfold registers; set_solver|]. exists "C"%char, 2. repeat split; lia.
Qed.

Lemma X13_is_register_gives_a_code_witness :
  "B"%string = erase_from "," (upper "b,")
  ∧ "B"%string ∈ registers
  ∧ ∃ c r, back "B" = Some c ∧ register_codes c = Some r ∧ 0 ≤ r ≤ 2.
Proof. exact (X13_is_register_gives_a_code "b," "B" eq_refl). Defined.

(** ** X14 *)




(** ** X15 *)

(** X15: a line whose first word no block of [parse_line] takes (a
    mnemonic in lower case, for one) is not rejected: [main] emits an
    opcode byte that was never assigned followed by FF FF, moves the
    counter by one and leaves the label maps alone; the rest of the line
    is not read. *)
Theorem X15_unknown_mnemonic_is_emitted
    (line t : string) (rest : list string) (st : Asm) :
  words (clean_line line) = t :: rest →
  unrecognised t = true →
  main_step line st
  = Ok (mkAsm (program st ++ [None; Some 0xFF; Some 0xFF])
              (u16 (address st + 1)) (labels st) (waiting_labels st)).
Proof.
  intros Hw Hun. unfold unrecognised in Hun.
  rewrite !andb_true_iff, !negb_true_iff in Hun.
  destruct Hun
    as ((((((((Hld & Hst) & Hadd) & Hsub) & Hbit) & Hcp) & Hback) & Hjmp) & Hnop).
  destruct (back t) as [c|] eqn:Hc; [|discriminate]. apply negb_true_iff in Hback.
  unfold main_step, parse_line. rewrite (words_nonempty _ _ _ Hw), Hw.
  unfold blocks, and_then, ld_block, st_block, arith_block, bitwise_block, cp_block,
    label_block, jmp_block, nop_block.
  cbn -[u16 u8 substring]. rewrite Hld. cbn -[u16 u8 substring].
  rewrite Hst. cbn -[u16 u8 substring]. rewrite Hadd, Hsub. cbn -[u16 u8 substring].
  rewrite Hbit. cbn -[u16 u8 substring]. rewrite Hcp. cbn -[u16 u8 substring].
  rewrite Hc. cbn -[u16 u8 substring]. rewrite Hback. cbn -[u16 u8 substring].
  rewrite Hjmp. cbn -[u16 u8 substring]. rewrite Hnop. cbn -[u16 u8 substring].
  f_equal. unfold emit, push_back. cbn [opcode operand1 operand2 Instruction_new].
  change (negb (u8 EMPTY_OPERAND =? EMPTY_OPERAND)) with true.
  change (u8 EMPTY_OPERAND) with 255. cbn. rewrite <- ?app_assoc. reflexivity.
Qed.

Lemma X15_unknown_mnemonic_is_emitted_witness :
  main_step "lda 5" Asm_new = Ok (mkAsm ([] ++ [None; Some 0xFF; Some 0xFF]) (u16 (0 + 1)) ∅ ∅).
Proof.
  exact (X15_unknown_mnemonic_is_emitted "lda 5" "lda" ["5"%string] Asm_new
           eq_refl eq_refl).
Defined.

(** ** What a line keeps *)

Lemma map_insert_subseteq (k : string) (v : Z) (m : gmap string Z) :
  m ⊆ map_insert k v m.
Proof.
  unfold map_insert. destruct (m !! k) eqn:H; [reflexivity|].
  apply insert_subseteq. exact H.
Qed.

Lemma grown_trans (a b c : Asm) : grown a b → grown b c → grown a c.
Proof.
  unfold grown. intros (H1 & H2 & H3) (H4 & H5 & H6).
  split; [congruence|]. split; etrans; eauto.
Qed.

Ltac grown_solve :=
  unfold grown; cbn;
  rewrite ?extract_asm; cbn; rewrite ?extract_asm; cbn; rewrite ?extract_asm;
  repeat match goal with
  | H : store _ _ _ = Some _ |- _ =>
      apply store_length in H; cbn in H; rewrite ?extract_asm in H
  end;
  repeat split; auto using map_insert_subseteq; try congruence.

Lemma ld_block_grown (e : Env) (f : flow) :
  ld_block e = Ok f → grown (asm e) (asm (flow_env f)).
Proof. unfold ld_block. intros H. block_inv; grown_solve. Qed.

Lemma st_block_grown (e : Env) (f : flow) :
  st_block e = Ok f → grown (asm e) (asm (flow_env f)).
Proof. unfold st_block. intros H. block_inv; grown_solve. Qed.

Lemma arith_block_grown (e : Env) (f : flow) :
  arith_block e = Ok f → grown (asm e) (asm (flow_env f)).
Proof. unfold arith_block. intros H. block_inv; grown_solve. Qed.

Lemma bitwise_block_grown (e : Env) (f : flow) :
  bitwise_block e = Ok f → grown (asm e) (asm (flow_env f)).
Proof. unfold bitwise_block. intros H. block_inv; grown_solve. Qed.

Lemma cp_block_grown (e : Env) (f : flow) :
  cp_block e = Ok f → grown (asm e) (asm (flow_env f)).
Proof. unfold cp_block. intros H. block_inv; grown_solve. Qed.

Lemma label_block_grown (e : Env) (f : flow) :
  label_block e = Ok f → grown (asm e) (asm (flow_env f)).
Proof. unfold label_block, check_waiting_labels. intros H. block_inv; grown_solve. Qed.

Lemma jmp_block_grown (e : Env) (f : flow) :
  jmp_block e = Ok f → grown (asm e) (asm (flow_env f)).
Proof. unfold jmp_block, get_label_address. intros H. block_inv; grown_solve. Qed.

Lemma nop_block_grown (e : Env) (f : flow) :
  nop_block e = Ok f → grown (asm e) (asm (flow_env f)).
Proof. unfold nop_block. intros H. block_inv; grown_solve. Qed.

Lemma and_then_grown (e : Env) (b k : Env → result flow) (f : flow) :
  (∀ e f, b e = Ok f → grown (asm e) (asm (flow_env f))) →
  (∀ e f, k e = Ok f → grown (asm e) (asm (flow_env f))) →
  and_then (b e) k = Ok f → grown (asm e) (asm (flow_env f)).
Proof.
  intros Hb Hk H. unfold and_then in H.
  apply bind_Ok in H as (f0 & Hf0 & H). apply Hb in Hf0.
  destruct f0 as [e' | e'].
  - injection H as <-. exact Hf0.
  - apply Hk in H. exact (grown_trans _ _ _ Hf0 H).
Qed.

Lemma blocks_grown (e : Env) (f : flow) :
  blocks e = Ok f → grown (asm e) (asm (flow_env f)).
Proof.
  unfold blocks.
  repeat (apply and_then_grown; [auto using ld_block_grown, st_block_grown,
    arith_block_grown, bitwise_block_grown, cp_block_grown, label_block_grown,
    jmp_block_grown | intros ? ?]).
  apply nop_block_grown.
Qed.

Lemma parse_line_grown (line : string) (st st1 : Asm) (pl : ParsedLine) :
  parse_line line st = Ok (pl, st1) → grown st st1.
Proof.
  unfold parse_line. intros H.
  apply bind_Ok in H as (f & Hf & H).
  apply blocks_grown in Hf. rewrite extract_asm in Hf. cbn in Hf.
  destruct (env_is_label (flow_env f)); injection H as <- <-; [exact Hf|].
  unfold grown in *. cbn. exact Hf.
Qed.

Lemma emit_keeps (i : Instruction) (a : Asm) :
  labels (emit i a) = labels a ∧ waiting_labels (emit i a) = waiting_labels a
  ∧ address (emit i a) = address a.
Proof. unfold emit. repeat case_match; cbn; auto. Qed.

(** One turn of the loop: no byte or three bytes more, and every entry
    of both label maps kept. *)
Lemma main_step_grown (line : string) (st st' : Asm) :
  main_step line st = Ok st' →
  (length (program st') = length (program st)
   ∨ length (program st') = (length (program st) + 3)%nat)
  ∧ labels st ⊆ labels st' ∧ waiting_labels st ⊆ waiting_labels st'.
Proof.
  unfold main_step. destruct (clean_line line =? "")%string.
  - intros [= <-]. auto.
  - intros H. apply bind_Ok in H as ([pl st1] & Hparse & H).
    pose proof (parse_line_grown _ _ _ _ Hparse) as (Hlen & Hl & Hw).
    destruct (is_label pl) eqn:Hlab; injection H as <-.
    + rewrite Hlen. auto.
    + destruct (parse_line_instruction _ _ _ _ Hparse Hlab) as (Hp & Hb1 & Hb2).
      destruct (emit_keeps (instruction pl) st1) as (-> & -> & _).
      rewrite emit_program by assumption. rewrite length_app, Hlen. cbn.
      split; [right; reflexivity|]. split; assumption.
Qed.

(** ** X16 *)

(** X16: the assembler never changes or removes an entry of [labels] or
    of [waiting_labels]: an address a label has, and the offset recorded
    for a pending label, are the same after any further lines that are
    assembled; a second declaration of a label or a second pending
    reference is accepted and has no effect on the entry. *)
Theorem X16_label_entries_are_kept (lines : list string) (st st' : Asm) :
  main_loop lines st = Ok st' →
  (∀ L a, labels st !! L = Some a → labels st' !! L = Some a)
  ∧ (∀ L a, waiting_labels st !! L = Some a → waiting_labels st' !! L = Some a).
Proof.
  revert st. induction lines as [|line lines IH]; intros st; cbn.
  - intros [= <-]. auto.
  - intros H. apply bind_Ok in H as (st1 & Hstep & H).
    destruct (main_step_grown _ _ _ Hstep) as (_ & Hl & Hw).
    destruct (IH _ H) as [IHl IHw].
    split; intros L a HL.
    + apply IHl. eapply lookup_weaken; eassumption.
    + apply IHw. eapply lookup_weaken; eassumption.
Qed.

Lemma X16_label_entries_are_kept_witness :
  ∃ st', main_loop ["LDA 1"; "loop:"]%string (mkAsm [] 0 {["loop"%string := 0]} ∅) = Ok st'
    ∧ labels st' !! "loop"%string = Some 0.
Proof.
  assert (H : main_loop ["LDA 1"; "loop:"]%string (mkAsm [] 0 {["loop"%string := 0]} ∅)
              = Ok (ok_or Asm_new
                      (main_loop ["LDA 1"; "loop:"]%string
                                 (mkAsm [] 0 {["loop"%string := 0]} ∅))))
    by (vm_compute; reflexivity).
  eexists. split; [exact H|].
  refine (proj1 (X16_label_entries_are_kept _ _ _ H) "loop"%string 0 _).
  vm_compute; reflexivity.
Defined.

(** ** X17 *)

(** X17: the program grows by three bytes for every line that emits
    and by nothing for the others: after any lines its length is the
    length before plus three times a number that is at most the number of
    lines.  A finished program is a multiple of three bytes long. *)
Theorem X17_three_bytes_per_emitting_line (lines : list string) (st st' : Asm) :
  main_loop lines st = Ok st' →
  ∃ n, (n ≤ length lines)%nat
    ∧ length (program st') = (length (program st) + 3 * n)%nat.
Proof.
  revert st. induction lines as [|line lines IH]; intros st; cbn.
  - intros [= <-]. exists 0%nat. split; lia.
  - intros H. apply bind_Ok in H as (st1 & Hstep & H).
    destruct (main_step_grown _ _ _ Hstep) as ([Hlen | Hlen] & _).
    + destruct (IH _ H) as (n & Hn & Hp). exists n. split; [lia|].
      rewrite Hp, Hlen. reflexivity.
    + destruct (IH _ H) as (n & Hn & Hp). exists (S n). split; [lia|].
      rewrite Hp, Hlen. lia.
Qed.

Lemma X17_three_bytes_per_emitting_line_witness :
  ∃ st', main_loop ["begin:"; "LDA 1"; ""; "NOT A"]%string Asm_new = Ok st'
    ∧ ∃ n, (n ≤ 4)%nat ∧ length (program st') = (0 + 3 * n)%nat.
Proof.
  assert (H : main_loop ["begin:"; "LDA 1"; ""; "NOT A"]%string Asm_new
              = Ok (ok_or Asm_new
                      (main_loop ["begin:"; "LDA 1"; ""; "NOT A"]%string Asm_new)))
    by (vm_compute; reflexivity).
  eexists. split; [exact H|].
  exact (X17_three_bytes_per_emitting_line _ _ _ H).
Defined.

(** ** X18 *)

Lemma pair_of_bytes (a : Z) :
  0 ≤ a < 65536 →
  Z.lor (Z.shiftl (u8 (Z.shiftr a 8)) 8) (u8 (Z.land a 0xFF)) = a.
Proof.
  intros Ha. unfold u8. change 256 with (2 ^ 8). change 0xFF with (Z.ones 8).
  rewrite Z.land_ones by lia. rewrite Z.mod_mod by lia.
  apply Z.bits_inj'; intros n Hn.
  rewrite Z.lor_spec.
  destruct (Z.lt_ge_cases n 8) as [Hlt | Hge].
  - rewrite Z.shiftl_spec_low by lia. rewrite Z.mod_pow2_bits_low by lia. reflexivity.
  - rewrite Z.shiftl_spec by lia. rewrite (Z.mod_pow2_bits_high a) by lia.
    rewrite orb_false_r.
    destruct (Z.lt_ge_cases n 16) as [Hlt | Hge'].
    + rewrite Z.mod_pow2_bits_low by lia. rewrite Z.shiftr_spec by lia.
      f_equal. lia.
    + rewrite Z.mod_pow2_bits_high by lia. symmetry.
      rewrite <- (Z.mod_small a (2 ^ 16)) by lia.
      apply Z.mod_pow2_bits_high. lia.
Qed.

(** X18: the two operand bytes the assembler writes for a 16-bit
    address, high byte first, are bytes, and the pair the machine reads
    from two ROM bytes holding them is that address again. *)
Theorem X18_address_operands_round_trip (a : Z) (e : Env) (vm : Vm.VM) :
  0 ≤ a < 65536 →
  let i := instr (set_address_operands a e) in
  at_index (Vm.rom vm) (Vm.PC vm) = Some (operand1 i) →
  at_index (Vm.rom vm) (u16 (Vm.PC vm + 1)) = Some (operand2 i) →
  byte (operand1 i) ∧ byte (operand2 i)
  ∧ Vm.fetch_pair vm
    = Some (a, Vm.with_PC (u16 (u16 (Vm.PC vm + 1) + 1)) vm).
Proof.
  intros Ha i H1 H2. cbn in i. subst i. cbn in *.
  split; [apply byte_u8|]. split; [apply byte_u8|].
  rewrite (VmMore.fetch_pair_some _ _ _ H1 H2).
  rewrite pair_of_bytes by assumption. reflexivity.
Qed.

Lemma X18_address_operands_round_trip_witness :
  byte 0x01 ∧ byte 0x23
  ∧ Vm.fetch_pair (vm_with [0x01; 0x23])
    = Some (0x0123, Vm.with_PC 2 (vm_with [0x01; 0x23])).
Proof.
  assert (Ha : 0 ≤ 0x0123 < 65536) by lia.
  exact (X18_address_operands_round_trip 0x0123
           (mkEnv "" [] Instruction_new "" false Asm_new) (vm_with [0x01; 0x23])
           Ha eq_refl eq_refl).
Defined.

(** ** X19 *)

(** X19: a line whose first word begins with [ST] and does not end in
    A, B or C is taken for a store, whatever it is, and [st_addresses.at]
    throws [std::out_of_range]; a label declaration such as [START:] or
    [STOP:] ends the assembly that way. *)
Theorem X19_word_in_ST_needs_a_register
    (line t : string) (rest : list string) (c : ascii) (st : Asm) :
  words (clean_line line) = t :: rest →
  substring 0 2 t = "ST"%string →
  back t = Some c →
  st_addresses c = None →
  main_step line st = Fail out_of_range.
Proof.
  intros Hw Hst Hc Hnone. unfold main_step, parse_line.
  rewrite (words_nonempty _ _ _ Hw), Hw.
  unfold blocks, and_then, ld_block, st_block.
  cbn -[u16 u8 substring]. rewrite Hst. cbn -[u16 u8 substring].
  rewrite Hc. cbn -[u16 u8 substring].
  destruct rest; cbn -[u16 u8 substring]; rewrite ?Hst, Hnone; reflexivity.
Qed.

Lemma X19_word_in_ST_needs_a_register_witness :
  main_step "START:" Asm_new = Fail out_of_range.
Proof.
  exact (X19_word_in_ST_needs_a_register "START:" "START:" [] ":" Asm_new
           eq_refl eq_refl eq_refl eq_refl).
Defined.

(** ** X20 *)

Lemma label_word_not_operation (t : string) :
  back t = Some ":"%char →
  found (bitwise_operations t) = false ∧ (t =? "CP")%string = false.
Proof.
  intros Hb. split.
  - unfold bitwise_operations.
    repeat match goal with
    | |- context [(t =? ?s)%string] =>
        destruct (String.eqb_spec t s) as [-> | _]; [discriminate Hb|]
    end. reflexivity.
  - destruct (String.eqb_spec t "CP") as [-> | _]; [discriminate Hb | reflexivity].
Qed.

(** What a line that declares a label does. *)
Lemma label_line (line t : string) (rest : list string) (st : Asm) :
  words (clean_line line) = t :: rest →
  label_word t = true →
  main_step line st = check_waiting_labels (pop_back t) (after_label (pop_back t) st).
Proof.
  intros Hw Hl. unfold label_word in Hl.
  rewrite !andb_true_iff, !negb_true_iff in Hl.
  destruct Hl as ((((Hld & Hst) & Hadd) & Hsub) & Hback).
  destruct (back t) as [c|] eqn:Hc; [|discriminate].
  apply Ascii.eqb_eq in Hback. subst c.
  destruct (label_word_not_operation t Hc) as [Hbit Hcp].
  unfold main_step, parse_line. rewrite (words_nonempty _ _ _ Hw), Hw.
  unfold blocks, and_then, ld_block, st_block, arith_block, bitwise_block, cp_block,
    label_block.
  cbn -[u16 u8 substring check_waiting_labels]. rewrite Hld.
  cbn -[u16 u8 substring check_waiting_labels]. rewrite Hst.
  cbn -[u16 u8 substring check_waiting_labels]. rewrite Hadd, Hsub.
  cbn -[u16 u8 substring check_waiting_labels]. rewrite Hbit.
  cbn -[u16 u8 substring check_waiting_labels]. rewrite Hcp.
  cbn -[u16 u8 substring check_waiting_labels]. rewrite Hc.
  cbn -[u16 u8 substring check_waiting_labels].
  fold (after_label (pop_back t) st).
  destruct (check_waiting_labels (pop_back t) (after_label (pop_back t) st)); reflexivity.
Qed.

(** X20: a line whose first word ends in a colon (and does not begin
    like a load, store or arithmetic mnemonic) declares the label named
    by the word without its colon and nothing else: whatever follows on
    the line is not read and no byte is emitted; the counter stays 0 when
    it is 0 and moves by one otherwise, and the label is entered with the
    new counter unless it has an address already, which is then kept.
    This is the whole effect when no jump is waiting for the label. *)
Theorem X20_label_declaration (line t : string) (rest : list string) (st : Asm) :
  words (clean_line line) = t :: rest →
  label_word t = true →
  waiting_labels st !! pop_back t = None →
  let a := if address st =? 0 then 0 else u16 (address st + 1) in
  main_step line st
  = Ok (mkAsm (program st) a
              (match labels st !! pop_back t with
               | Some _ => labels st
               | None => <[pop_back t := a]> (labels st)
               end)
              (waiting_labels st)).
Proof.
  intros Hw Hl Hwait a. rewrite (label_line _ _ _ _ Hw Hl).
  unfold check_waiting_labels, after_label. cbn. rewrite Hwait.
  unfold map_insert, a.
  destruct (Z.eqb_spec (address st) 0) as [-> | _]; reflexivity.
Qed.

Lemma X20_label_declaration_witness :
  main_step "loop: LDA 1" (mkAsm [Some 0x00; Some 0xFF; Some 0xFF] 1 ∅ ∅)
  = Ok (mkAsm [Some 0x00; Some 0xFF; Some 0xFF] (u16 (1 + 1))
              (<["loop"%string := u16 (1 + 1)]> ∅) ∅).
Proof.
  exact (X20_label_declaration "loop: LDA 1" "loop:" ["LDA"; "1"]%string
           (mkAsm [Some 0x00; Some 0xFF; Some 0xFF] 1 ∅ ∅) eq_refl eq_refl eq_refl).
Defined.

(** ** X21 *)

(** X21: a jump to a label that has an address is emitted with that
    address as its operand bytes, high byte first, and enters nothing in
    either label map. *)
Theorem X21_backward_reference (line L : string) (op a : Z) (st : Asm) :
  jump_to line L op →
  labels st !! L = Some a →
  ∃ st1, main_step line st = Ok st1
    ∧ program st1
      = program st ++ [Some op; Some (u8 (Z.shiftr a 8)); Some (u8 (Z.land a 0xFF))]
    ∧ labels st1 = labels st
    ∧ waiting_labels st1 = waiting_labels st.
Proof.
  intros [(cc & Hw & Hcc) | (Hw & Hjc & Hcomma & ->)] Hlab.
  - unfold main_step. rewrite (words_nonempty _ _ _ Hw).
    unfold parse_line. rewrite Hw.
    cbn -[u16 u8]. rewrite Hcc. cbn -[u16 u8].
    unfold get_label_address. cbn -[u16 u8]. rewrite Hlab. cbn -[u16 u8].
    eexists; split; [reflexivity|].
    rewrite emit_program by apply byte_u8.
    split; [reflexivity|].
    match goal with
    | |- context [emit ?i ?s] => destruct (emit_keeps i s) as (-> & -> & _)
    end.
    split; reflexivity.
  - unfold main_step. rewrite (words_nonempty _ _ _ Hw).
    unfold parse_line. rewrite Hw.
    cbn -[u16 u8]. rewrite Hcomma, Hjc. cbn -[u16 u8].
    unfold get_label_address. cbn -[u16 u8]. rewrite Hlab. cbn -[u16 u8].
    eexists; split; [reflexivity|].
    rewrite emit_program by apply byte_u8.
    split; [reflexivity|].
    match goal with
    | |- context [emit ?i ?s] => destruct (emit_keeps i s) as (-> & -> & _)
    end.
    split; reflexivity.
Qed.

Lemma X21_backward_reference_witness :
  ∃ st1, main_step "JMP loop" (mkAsm [] 0 {["loop"%string := 0x0123]} ∅) = Ok st1
    ∧ program st1
      = [] ++ [Some 0x13; Some (u8 (Z.shiftr 0x0123 8)); Some (u8 (Z.land 0x0123 0xFF))]
    ∧ labels st1 = {["loop"%string := 0x0123]}
    ∧ waiting_labels st1 = ∅.
Proof.
  assert (Hlab : ({["loop"%string := 0x0123]} : gmap string Z) !! "loop"%string = Some 0x0123)
    by (vm_compute; reflexivity).
  exact (X21_backward_reference "JMP loop" "loop" 0x13 0x0123
           (mkAsm [] 0 {["loop"%string := 0x0123]} ∅)
           (or_intror (conj eq_refl (conj eq_refl (conj eq_refl eq_refl)))) Hlab).
Defined.

(** ** X22 *)

Lemma conditional_jump_forward (line cc L : string) (op : Z) (st : Asm) :
  words (clean_line line) = ["JMP"; cc; L]%string →
  jump_cases (erase_from "," cc) = Some op →
  labels st !! L = None →
  main_step line st
  = Ok (mkAsm (program st ++ [Some op; Some 0xFF; Some 0xFF])
              (u16 (u16 (u16 (address st + 1) + 1) + 1))
              (labels st)
              (map_insert L (u16 (u16 (address st + 1) + 1)) (waiting_labels st))).
Proof.
  intros Hw Hcc Hlab.
  unfold main_step. rewrite (words_nonempty _ _ _ Hw).
  unfold parse_line. rewrite Hw.
  cbn -[u16 u8]. rewrite Hcc. cbn -[u16 u8].
  unfold get_label_address. cbn -[u16 u8]. rewrite Hlab. cbn -[u16 u8].
  f_equal. unfold emit, push_back. cbn [opcode operand1 operand2].
  change (u8 (Z.shiftr (u16 (-1)) 8)) with 255.
  change (u8 (Z.land (u16 (-1)) 255)) with 255.
  cbn. rewrite <- ?app_assoc. reflexivity.
Qed.

(** X22: when the counter equals the length of the program, a
    conditional jump to a label that is neither declared nor waited for,
    followed at once by the declaration of that label, is patched in
    place: the program gains the opcode and the two bytes of the label's
    address, high byte first, and nothing else changes.  The address the
    label gets is the counter plus four, one more than the offset of the
    byte after the jump. *)
Theorem X22_forward_reference_is_patched
    (jump decl cc t : string) (rest : list string) (op : Z) (st : Asm) :
  words (clean_line jump) = ["JMP"; cc; pop_back t]%string →
  jump_cases (erase_from "," cc) = Some op →
  words (clean_line decl) = t :: rest →
  label_word t = true →
  labels st !! pop_back t = None →
  waiting_labels st !! pop_back t = None →
  address st = Z.of_nat (length (program st)) →
  address st + 4 < 65536 →
  let target := address st + 4 in
  main_loop [jump; decl] st
  = Ok (mkAsm (program st
               ++ [Some op; Some (u8 (Z.shiftr target 8)); Some (u8 (Z.land target 0xFF))])
              target
              (<[pop_back t := target]> (labels st))
              (<[pop_back t := address st + 2]> (waiting_labels st))).
Proof.
  intros Hj Hcc Hd Hl Hlab Hwait Haddr Hsmall target.
  assert (Hpos : 0 ≤ address st) by lia.
  cbn [main_loop]. rewrite (conditional_jump_forward _ _ _ _ _ Hj Hcc Hlab).
  cbn [mbind result_bind].
  rewrite (label_line decl t rest _ Hd Hl).
  cbn [mbind result_bind].
  assert (Hu : ∀ k, 0 ≤ k ≤ 4 → u16 (address st + k) = address st + k)
    by (intros; apply Z.mod_small; lia).
  rewrite (Hu 1) by lia.
  replace (address st + 1 + 1) with (address st + 2) by lia. rewrite (Hu 2) by lia.
  replace (address st + 2 + 1) with (address st + 3) by lia. rewrite (Hu 3) by lia.
  unfold after_label, check_waiting_labels, map_insert.
  cbn [address labels waiting_labels program].
  destruct (Z.eqb_spec (address st + 3) 0) as [?|_]; [lia|].
  replace (address st + 3 + 1) with target by (unfold target; lia).
  unfold target at 1 2 3. rewrite (Hu 4) by lia. fold target.
  rewrite Hwait, Hlab, lookup_insert_eq. cbn [mbind result_bind].
  replace (address st + 2 - 1) with (address st + 1) by lia.
  unfold store. rewrite !length_app. cbn [length].
  destruct (Z.leb_spec 0 (address st + 1)) as [_|?]; [|lia].
  destruct (Z.ltb_spec (address st + 1) (Z.of_nat (length (program st) + 3)))
    as [_|?]; [|lia].
  cbn [andb or_fail mbind result_bind].
  rewrite length_insert, !length_app. cbn [length].
  destruct (Z.leb_spec 0 (address st + 2)) as [_|?]; [|lia].
  destruct (Z.ltb_spec (address st + 2) (Z.of_nat (length (program st) + 3)))
    as [_|?]; [|lia].
  cbn [andb or_fail mbind result_bind].
  f_equal. f_equal.
  replace (Z.to_nat (address st + 1)) with (length (program st) + 1)%nat by lia.
  replace (Z.to_nat (address st + 2)) with (length (program st) + 2)%nat by lia.
  rewrite !insert_app_r. unfold target. rewrite ?(Hu 4) by lia. reflexivity.
Qed.

Lemma X22_forward_reference_is_patched_witness :
  main_loop ["JMP Z, end"; "end:"]%string Asm_new
  = Ok (mkAsm ([] ++ [Some 0x14; Some (u8 (Z.shiftr (0 + 4) 8));
                      Some (u8 (Z.land (0 + 4) 0xFF))])
              (0 + 4)
              (<["end"%string := 0 + 4]> ∅)
              (<["end"%string := 0 + 2]> ∅)).
Proof.
  assert (Hsmall : 0 + 4 < 65536) by lia.
  exact (X22_forward_reference_is_patched "JMP Z, end" "end:" "Z," "end:" [] 0x14 Asm_new
           eq_refl eq_refl eq_refl eq_refl eq_refl eq_refl eq_refl Hsmall).
Defined.

(** ** X23 *)

Lemma register_codes_inv (r : ascii) (c : Z) :
  register_codes r = Some c →
  (r = "A"%char ∧ c = 0) ∨ (r = "B"%char ∧ c = 1) ∨ (r = "C"%char ∧ c = 2).
Proof.
  unfold register_codes.
  destruct (Ascii.eqb_spec r "A"); [intros [= <-]; auto|].
  destruct (Ascii.eqb_spec r "B"); [intros [= <-]; auto|].
  destruct (Ascii.eqb_spec r "C"); [intros [= <-]; auto|].
  discriminate.
Qed.

Lemma u16_three (x : Z) : u16 (u16 (u16 (x + 1) + 1) + 1) = u16 (x + 3).
Proof. unfold u16. Z.div_mod_to_equations. lia. Qed.

(** X23: the encoding of the forms whose operands are registers.  For
    registers [r1] and [r2] with the codes [c1] and [c2]: [ADD], [SUB],
    [AND], [OR] and [XOR] on [r1, r2] emit the opcode 0B, 0C, 0F, 10 or
    11 followed by [c1] and [c2]; [LDr1 r2] emits the register-load
    opcode of [r1], then [c2] and FF; [NOT r1] emits 12, [c1] and FF.
    The counter moves by three, for [NOT] by two, and the label maps are
    left alone. *)
Theorem X23_register_forms (r1 r2 : ascii) (c1 c2 : Z) (st : Asm) :
  register_codes r1 = Some c1 →
  register_codes r2 = Some c2 →
  let emitted bytes n :=
    Ok (mkAsm (program st ++ bytes) (u16 (address st + n))
              (labels st) (waiting_labels st)) in
  (∀ line m op,
     words (clean_line line) = [m; String r1 ","; String r2 ""] →
     (m, op) ∈ register_form →
     main_step line st = emitted [Some op; Some c1; Some c2] 3)
  ∧ (∀ line,
       words (clean_line line)
         = [String "L" (String "D" (String r1 "")); String r2 ""] →
       main_step line st = emitted [ld_registers r1; Some c2; Some 0xFF] 3)
  ∧ (∀ line,
       words (clean_line line) = ["NOT"%string; String r1 ""] →
       main_step line st = emitted [Some 0x12; Some c1; Some 0xFF] 2).
Proof.
  intros H1 H2 emitted. subst emitted. cbv beta.
  assert (Htwo : u16 (u16 (address st + 1) + 1) = u16 (address st + 2))
    by (unfold u16; Z.div_mod_to_equations; lia).
  rewrite <- u16_three, <- Htwo. clear Htwo.
  destruct st as [p a l w].
  apply register_codes_inv in H1 as [[-> ->] | [[-> ->] | [-> ->]]];
  apply register_codes_inv in H2 as [[-> ->] | [[-> ->] | [-> ->]]].
  all: split; [|split].
  all: try (intros line m op Hw Hm; unfold main_step, parse_line;
            rewrite (words_nonempty _ _ _ Hw), Hw;
            unfold register_form in Hm; rewrite !elem_of_cons in Hm;
            destruct Hm
              as [[= -> ->] | [[= -> ->] | [[= -> ->] | [[= -> ->] | [[= -> ->] | H]]]]];
            try (inversion H; fail);
            lazy -[app u16 Z.add]; rewrite <- !app_assoc; reflexivity).
  all: intros line Hw; unfold main_step, parse_line;
       rewrite (words_nonempty _ _ _ Hw), Hw;
       lazy -[app u16 Z.add]; rewrite <- !app_assoc; reflexivity.
Qed.

Lemma X23_register_forms_witness :
  main_step "SUB B, C" Asm_new
  = Ok (mkAsm ([] ++ [Some 0x0C; Some 1; Some 2]) (u16 (0 + 3)) ∅ ∅)
  ∧ main_step "NOT B" Asm_new
    = Ok (mkAsm ([] ++ [Some 0x12; Some 1; Some 0xFF]) (u16 (0 + 2)) ∅ ∅).
Proof.
  destruct (X23_register_forms "B" "C" 1 2 Asm_new eq_refl eq_refl) as (Hrr & _ & Hnot).
  assert (Hm : ("SUB"%string, 0x0C) ∈ register_form)
    by (unfold register_form; set_solver).
  split; [exact (Hrr "SUB B, C"%string "SUB"%string 0x0C eq_refl Hm)|].
  exact (Hnot "NOT B"%string eq_refl).
Defined.

(** ** X24 *)

(** X24: for an unconditional jump the offset put in [waiting_labels]
    is that of the opcode byte.  When the counter equals the length of
    the program, [JMP L] followed at once by the declaration of [L]
    leaves the three bytes of the jump as the high byte of the label's
    address, its low byte and FF: the opcode 0x13 is overwritten and
    the low operand byte keeps the placeholder. *)
Theorem X24_unconditional_forward_reference_overwrites_the_opcode
    (jump decl t : string) (rest : list string) (st : Asm) :
  words (clean_line jump) = ["JMP"; pop_back t]%string →
  jump_cases (pop_back t) = None →
  erase_from "," (pop_back t) = pop_back t →
  words (clean_line decl) = t :: rest →
  label_word t = true →
  labels st !! pop_back t = None →
  waiting_labels st !! pop_back t = None →
  address st = Z.of_nat (length (program st)) →
  address st + 4 < 65536 →
  let target := address st + 4 in
  main_loop [jump; decl] st
  = Ok (mkAsm (program st
               ++ [Some (u8 (Z.shiftr target 8)); Some (u8 (Z.land target 0xFF)); Some 0xFF])
              target
              (<[pop_back t := target]> (labels st))
              (<[pop_back t := address st + 1]> (waiting_labels st))).
Proof.
  intros Hj Hjc Hcomma Hd Hl Hlab Hwait Haddr Hsmall target.
  assert (Hpos : 0 ≤ address st) by lia.
  assert (Hjump : main_step jump st
    = Ok (mkAsm (program st ++ [Some 0x13; Some 0xFF; Some 0xFF])
              (u16 (u16 (u16 (address st + 1) + 1) + 1))
              (labels st)
              (map_insert (pop_back t) (u16 (address st + 1)) (waiting_labels st)))).
  { unfold main_step. rewrite (words_nonempty _ _ _ Hj).
    unfold parse_line. rewrite Hj.
    cbn -[u16 u8]. rewrite Hcomma, Hjc. cbn -[u16 u8].
    unfold get_label_address. cbn -[u16 u8]. rewrite Hlab. cbn -[u16 u8].
    f_equal. unfold emit, push_back. cbn [opcode operand1 operand2].
    change (u8 (Z.shiftr (u16 (-1)) 8)) with 255.
    change (u8 (Z.land (u16 (-1)) 255)) with 255.
    cbn. rewrite <- ?app_assoc. reflexivity. }
  cbn [main_loop]. rewrite Hjump. cbn [mbind result_bind].
  rewrite (label_line decl t rest _ Hd Hl).
  assert (Hu : ∀ k, 0 ≤ k ≤ 4 → u16 (address st + k) = address st + k)
    by (intros; apply Z.mod_small; lia).
  rewrite (Hu 1) by lia.
  replace (address st + 1 + 1) with (address st + 2) by lia. rewrite (Hu 2) by lia.
  replace (address st + 2 + 1) with (address st + 3) by lia. rewrite (Hu 3) by lia.
  unfold after_label, check_waiting_labels, map_insert.
  cbn [address labels waiting_labels program].
  destruct (Z.eqb_spec (address st + 3) 0) as [?|_]; [lia|].
  replace (address st + 3 + 1) with target by (unfold target; lia).
  unfold target at 1 2 3. rewrite (Hu 4) by lia. fold target.
  rewrite Hwait, Hlab, lookup_insert_eq. cbn [mbind result_bind].
  replace (address st + 1 - 1) with (address st) by lia.
  unfold store. rewrite !length_app. cbn [length].
  destruct (Z.leb_spec 0 (address st)) as [_|?]; [|lia].
  destruct (Z.ltb_spec (address st) (Z.of_nat (length (program st) + 3)))
    as [_|?]; [|lia].
  cbn [andb or_fail mbind result_bind].
  rewrite length_insert, !length_app. cbn [length].
  destruct (Z.leb_spec 0 (address st + 1)) as [_|?]; [|lia].
  destruct (Z.ltb_spec (address st + 1) (Z.of_nat (length (program st) + 3)))
    as [_|?]; [|lia].
  cbn [andb or_fail mbind result_bind].
  f_equal. f_equal.
  replace (Z.to_nat (address st)) with (length (program st) + 0)%nat by lia.
  replace (Z.to_nat (address st + 1)) with (length (program st) + 1)%nat by lia.
  rewrite !insert_app_r. unfold target. rewrite ?(Hu 4) by lia. reflexivity.
Qed.

Lemma X24_unconditional_forward_reference_overwrites_the_opcode_witness :
  main_loop ["JMP end"; "end:"]%string Asm_new
  = Ok (mkAsm ([] ++ [Some (u8 (Z.shiftr (0 + 4) 8)); Some (u8 (Z.land (0 + 4) 0xFF));
                      Some 0xFF])
              (0 + 4)
              (<["end"%string := 0 + 4]> ∅)
              (<["end"%string := 0 + 1]> ∅)).
Proof.
  assert (Hsmall : 0 + 4 < 65536) by lia.
  exact (X24_unconditional_forward_reference_overwrites_the_opcode
           "JMP end" "end:" "end:" [] Asm_new
           eq_refl eq_refl eq_refl eq_refl eq_refl eq_refl eq_refl eq_refl Hsmall).
Defined.

End AssemblerMore.
